(** * Verification of the OAuth client core of spyglass-search/third-party-apis

    Shallow embedding of [crates/auth_core] ([Credentials], the default
    methods of the [ApiClient] trait) and of the provider clients of
    [crates/github], [crates/hubspot] and [crates/reddit].

    Conventions of the embedding:
    - a [DateTime<Utc>] is its instant in nanoseconds since the epoch ([Z]);
      [Utc::now()] is an explicit argument [now];
    - a [std::time::Duration] and a [chrono::Duration] are records of seconds
      and nanoseconds, as the two crates store them;
    - a Rust [String] is a [string]; a [Vec<u8>] is a [list Byte.byte];
    - an [anyhow::Error] is its display message ([string]);
    - a panic ([expect]) is [None] in an [option]. *)

From Stdlib Require Import ZArith List String Ascii Bool Lia.
Import ListNotations.
Open Scope string_scope.
Open Scope Z_scope.

(** ** Rust's [Result] *)

Inductive result (A E : Type) : Type :=
| Ok (a : A)
| Err (e : E).
Arguments Ok {A E} a.
Arguments Err {A E} e.

(** ** Durations *)

(** [std::time::Duration]: [secs : u64], [nanos : u32] below one second. *)
Record StdDuration := mkStdDuration { sd_secs : Z; sd_nanos : Z }.

Definition NANOS_PER_SEC : Z := 1000000000.
Definition U64_MAX : Z := 18446744073709551615.
Definition I64_MAX : Z := 9223372036854775807.

(** The invariant every [std::time::Duration] value satisfies. *)
Definition std_duration_wf (d : StdDuration) : Prop :=
  0 <= sd_secs d <= U64_MAX /\ 0 <= sd_nanos d < NANOS_PER_SEC.

(** [Duration::from_secs]. *)
Definition std_from_secs (s : Z) : StdDuration := mkStdDuration s 0.

(** Total length in nanoseconds. *)
Definition std_total_nanos (d : StdDuration) : Z :=
  sd_secs d * NANOS_PER_SEC + sd_nanos d.

(** [chrono::Duration { secs: i64, nanos: i32 }], with [0 <= nanos < 10^9];
    its order is the derived lexicographic one. *)
Record ChronoDuration := mkChronoDuration { cd_secs : Z; cd_nanos : Z }.

Definition chrono_gtb (a b : ChronoDuration) : bool :=
  (cd_secs b <? cd_secs a) || ((cd_secs a =? cd_secs b) && (cd_nanos b <? cd_nanos a)).

(** [chrono::Duration::MAX]: [i64::MAX] milliseconds. *)
Definition CHRONO_MAX : ChronoDuration :=
  mkChronoDuration (I64_MAX / 1000) ((I64_MAX mod 1000) * 1000000).

Inductive OutOfRangeError := OutOfRange.

(** [chrono::Duration::from_std]. *)
Definition chrono_from_std (d : StdDuration) : result ChronoDuration OutOfRangeError :=
  if cd_secs CHRONO_MAX <? sd_secs d then Err OutOfRange
  else
    let cd := mkChronoDuration (sd_secs d) (sd_nanos d) in
    if chrono_gtb cd CHRONO_MAX then Err OutOfRange else Ok cd.

(** [DateTime<Utc> - DateTime<Utc>] ([signed_duration_since]), normalised. *)
Definition datetime_sub (a b : Z) : ChronoDuration :=
  mkChronoDuration ((a - b) / NANOS_PER_SEC) ((a - b) mod NANOS_PER_SEC).

(** ** Tokens *)

(** The fields of oauth2's [BasicTokenResponse] that the code reads:
    [access_token()], [refresh_token()] and [expires_in] (seconds). *)
Record TokenResponse := mkTokenResponse {
  tr_access_token : string;
  tr_refresh_token : option string;
  tr_expires_in_secs : option Z
}.

(** [StandardTokenResponse::expires_in]: [self.expires_in.map(Duration::from_secs)]. *)
Definition tr_expires_in (r : TokenResponse) : option StdDuration :=
  option_map std_from_secs (tr_expires_in_secs r).

(** ** [Credentials] (crates/auth_core/src/lib.rs) *)

Record Credentials := mkCredentials {
  requested_at : Z;
  access_token : string;
  refresh_token : option string;
  expires_in : option StdDuration
}.

(** [Credentials::is_expired]; [None] is the panic of
    [.expect("Unable to convert duration")]. *)
Definition is_expired (c : Credentials) (now : Z) : option bool :=
  match expires_in c with
  | Some duration =>
      match chrono_from_std duration with
      | Err _ => None
      | Ok dur => Some (chrono_gtb (datetime_sub now (requested_at c)) dur)
      end
  | None => Some false
  end.

(** [Credentials::refresh_token] (the update from a token response). *)
Definition credentials_refresh_token (c : Credentials) (now : Z)
    (resp : TokenResponse) : Credentials :=
  {| requested_at := now;
     access_token := tr_access_token resp;
     refresh_token := tr_refresh_token resp;
     expires_in := tr_expires_in resp |}.

(** ** HTTP clients *)

(** A [reqwest::Client] built by [auth_http_client]: what distinguishes two
    of them is the bearer token of their default [Authorization] header. *)
Record HttpClient := mkHttpClient { hc_bearer : string }.

(** [http::HeaderValue::from_str] accepts a byte [b] when
    [b >= 32 && b != 127 || b == b'\t']. *)
Definition header_byte_ok (a : ascii) : bool :=
  let n := Z.of_N (N_of_ascii a) in
  ((32 <=? n) && negb (n =? 127)) || (n =? 9).

Fixpoint string_forallb (f : ascii -> bool) (s : string) : bool :=
  match s with
  | EmptyString => true
  | String a s' => f a && string_forallb f s'
  end.

(** [auth_http_client]: the header value is ["Bearer {token}"]; building the
    client itself is taken to succeed. The error is the [anyhow] message. *)
Definition auth_http_client (token : string) : result HttpClient string :=
  if string_forallb header_byte_ok ("Bearer " ++ token) then Ok (mkHttpClient token)
  else Err "failed to parse header value".

(** ** Effects: state, observable events, panics *)

(** The observable effects of the code: a refresh grant sent to the token
    endpoint, a value published to listeners ([watch::Sender::send] or the
    [on_refresh] callback), and a GET request to an API endpoint. *)
Inductive Event :=
| EvRefreshExchange (refresh_token : string)
| EvPublish (c : Credentials)
| EvRequest (endpoint : string).

(** A state monad over the client [S] that records events; [None] is a panic. *)
Definition M (S A : Type) : Type := S -> option (S * list Event * A).

Definition mret {S A} (a : A) : M S A := fun s => Some (s, [], a).

Definition mbind {S A B} (m : M S A) (k : A -> M S B) : M S B :=
  fun s =>
    match m s with
    | None => None
    | Some (s1, l1, a) =>
        match k a s1 with
        | None => None
        | Some (s2, l2, b) => Some (s2, (l1 ++ l2)%list, b)
        end
    end.

Notation "x <- m ;; k" := (mbind m (fun x => k))
  (at level 61, m at next level, right associativity).
Notation "m ;;; k" := (mbind m (fun _ => k))
  (at level 61, right associativity).

Definition gets {S A} (f : S -> A) : M S A := fun s => Some (s, [], f s).
Definition modify {S} (f : S -> S) : M S unit := fun s => Some (f s, [], tt).
Definition emit {S} (e : Event) : M S unit := fun s => Some (s, [e], tt).
Definition panic {S A} : M S A := fun _ => None.

(** Lift a [bool] that may panic. *)
Definition lift_panic {S A} (o : option A) : M S A :=
  match o with Some a => mret a | None => panic end.

(** ** [ApiError] *)

(** [reqwest::Error]: its kind and [status()] (a status error carries only the
    status code and the URL). *)
Inductive ReqwestKind :=
| KStatus (code : Z)
| KDecode
| KRequest (msg : string).

Record ReqwestError := mkReqwestError { re_kind : ReqwestKind; re_url : string }.

Definition reqwest_error_status (e : ReqwestError) : option Z :=
  match re_kind e with KStatus c => Some c | _ => None end.

Inductive ApiError :=
| AuthError (msg : string)
| BadRequest (msg : string)
| RequestError (e : ReqwestError)
| Other (msg : string)
| SerdeError (msg : string).

(** ** The [ApiClient] trait *)

(** The required methods that the default methods use: [credentials],
    [http_client] and [refresh_credentials] (which returns an
    [anyhow::Result<()>]). *)
Class ApiClient (S : Type) := {
  credentials : S -> Credentials;
  http_client : S -> HttpClient;
  refresh_credentials : Z -> M S (result unit string)
}.

Section DefaultMethods.
Context {S : Type} {api : ApiClient S}.

(** [ApiClient::get_check_client]. *)
Definition get_check_client (now : Z) : M S (result HttpClient ApiError) :=
  c <- gets credentials ;;
  expired <- lift_panic (is_expired c now) ;;
  if expired then
    r <- refresh_credentials now ;;
    match r with
    | Err err => mret (Err (AuthError ("Unable to refresh credentials: " ++ err)))
    | Ok _ => cl <- gets http_client ;; mret (Ok cl)
    end
  else
    cl <- gets http_client ;; mret (Ok cl).

(** An HTTP response as [reqwest] hands it over. *)
Record Response := mkResponse { resp_url : string; resp_status : Z; resp_body : list Byte.byte }.

(** [reqwest::Response::error_for_status]: statuses 400..599 are errors. *)
Definition error_for_status (r : Response) : result Response ReqwestError :=
  if (400 <=? resp_status r) && (resp_status r <=? 599)
  then Err (mkReqwestError (KStatus (resp_status r)) (resp_url r))
  else Ok r.

(** [serde_json::Value]. *)
#[local] Set Warnings "-register-all".
Inductive JsonValue :=
| JNull
| JBool (b : bool)
| JNumber (n : Z)
| JString (s : string)
| JArray (l : list JsonValue)
| JObject (l : list (string * JsonValue)).

(** The network ([RequestBuilder::send]) and the JSON decoder of the body. *)
Variable send : HttpClient -> string -> list (string * string) -> result Response ReqwestError.
Variable json_decode : list Byte.byte -> option JsonValue.

(** [ApiClient::call]. *)
Definition call (now : Z) (endpoint : string) (query : list (string * string))
    : M S (result Response ApiError) :=
  r <- get_check_client now ;;
  match r with
  | Err e => mret (Err e)
  | Ok client =>
      emit (EvRequest endpoint) ;;;
      match send client endpoint query with
      | Ok resp => mret (Ok resp)
      | Err err => mret (Err (RequestError err))
      end
  end.

(** [Response::json]: a decode failure is a [reqwest::Error] of kind decode. *)
Definition response_json (r : Response) : result JsonValue ReqwestError :=
  match json_decode (resp_body r) with
  | Some v => Ok v
  | None => Err (mkReqwestError KDecode (resp_url r))
  end.

(** [ApiClient::call_json]. *)
Definition call_json (now : Z) (endpoint : string) (query : list (string * string))
    : M S (result JsonValue ApiError) :=
  r <- call now endpoint query ;;
  match r with
  | Err e => mret (Err e)
  | Ok resp =>
      match error_for_status resp with
      | Ok resp =>
          match response_json resp with
          | Ok res => mret (Ok res)
          | Err err => mret (Err (RequestError err))
          end
      | Err err =>
          match reqwest_error_status err with
          | Some 401 => mret (Err (AuthError "Unauthorized"))
          | _ => mret (Err (RequestError err))
          end
      end
  end.

End DefaultMethods.

(** ** oauth2's [RequestTokenError] and its [Display] *)

(** [ServerResponse] carries the provider's standard error JSON (kept as its
    error code), [Parse] the parser's error (its message) and the raw body. *)
Inductive RequestTokenError :=
| RTServerResponse (error : string)
| RTRequest (msg : string)
| RTParse (err_msg : string) (body : list Byte.byte)
| RTOther (msg : string).

Definition request_token_error_to_string (e : RequestTokenError) : string :=
  match e with
  | RTServerResponse _ => "Server returned error response"
  | RTRequest _ => "Request failed"
  | RTParse _ _ => "Failed to parse server response"
  | RTOther m => "Other error: " ++ m
  end.

(** ** [std::str::from_utf8] *)

Definition byte_z (b : Byte.byte) : Z := Z.of_N (Byte.to_N b).

Definition in_range (lo hi : Z) (b : Byte.byte) : bool :=
  (lo <=? byte_z b) && (byte_z b <=? hi).

Definition is_cont (b : Byte.byte) : bool := in_range 128 191 b.

(** The UTF-8 validation of [core::str::validations]: no overlong forms, no
    surrogates, nothing above U+10FFFF. *)
Fixpoint utf8_valid (l : list Byte.byte) : bool :=
  match l with
  | [] => true
  | b0 :: rest =>
      let x := byte_z b0 in
      if x <? 128 then utf8_valid rest
      else if (194 <=? x) && (x <=? 223) then
        match rest with
        | b1 :: rest' => is_cont b1 && utf8_valid rest'
        | _ => false
        end
      else if (224 <=? x) && (x <=? 239) then
        match rest with
        | b1 :: b2 :: rest' =>
            (if x =? 224 then in_range 160 191 b1
             else if x =? 237 then in_range 128 159 b1
             else is_cont b1)
            && is_cont b2 && utf8_valid rest'
        | _ => false
        end
      else if (240 <=? x) && (x <=? 244) then
        match rest with
        | b1 :: b2 :: b3 :: rest' =>
            (if x =? 240 then in_range 144 191 b1
             else if x =? 244 then in_range 128 143 b1
             else is_cont b1)
            && is_cont b2 && is_cont b3 && utf8_valid rest'
        | _ => false
        end
      else false
  end.

Fixpoint string_of_bytes (l : list Byte.byte) : string :=
  match l with
  | [] => EmptyString
  | b :: l' => String (ascii_of_byte b) (string_of_bytes l')
  end.

Inductive Utf8Error := InvalidUtf8.

(** [std::str::from_utf8] followed by [to_string]: the same bytes, as a
    [String]. *)
Definition from_utf8 (l : list Byte.byte) : result string Utf8Error :=
  if utf8_valid l then Ok (string_of_bytes l) else Err InvalidUtf8.

Definition result_map {A B E} (f : A -> B) (r : result A E) : result B E :=
  match r with Ok a => Ok (f a) | Err e => Err e end.

Definition result_unwrap_or {A E} (r : result A E) (d : A) : A :=
  match r with Ok a => a | Err _ => d end.

(** ** [tokio::sync::watch] *)

(** The shared state of a watch channel: the current value, its version and
    the number of live receivers ([send] fails when there is none). *)
Record WatchChannel := mkWatchChannel {
  w_value : Credentials;
  w_version : nat;
  w_receivers : nat
}.

Inductive SendError := SendErrorClosed (value : Credentials).

Definition send_error_to_string (e : SendError) : string := "channel closed".

(** [watch::Sender::send]. *)
Definition watch_send (ch : WatchChannel) (v : Credentials) : result WatchChannel SendError :=
  match w_receivers ch with
  | O => Err (SendErrorClosed v)
  | S _ => Ok (mkWatchChannel v (S (w_version ch)) (w_receivers ch))
  end.

(** ** oauth2's authorization URL builder *)

(** The parts of a [BasicClient] that the authorization URL uses. *)
Record OAuthConfig := mkOAuthConfig {
  oc_auth_url : string;
  oc_client_id : string;
  oc_redirect_url : option string
}.

(** A URL: its base and its query pairs, in order. *)
Record Url := mkUrl { url_base : string; url_query : list (string * string) }.

(** [PkceCodeChallenge::new_random_sha256()]: a random S256 challenge and its
    verifier; the random values are inputs of the embedding. *)
Record PkcePair := mkPkcePair { pk_challenge : string; pk_verifier : string }.

(** oauth2's [AuthorizationRequest] builder. *)
Record AuthUrlBuilder := mkAuthUrlBuilder {
  ab_state : string;
  ab_scopes : list string;
  ab_pkce_challenge : option string;
  ab_extra_params : list (string * string)
}.

(** [BasicClient::authorize_url(CsrfToken::new_random)]; the random state is
    an input. *)
Definition authorize_url (state : string) : AuthUrlBuilder :=
  mkAuthUrlBuilder state [] None [].

Definition add_scopes (b : AuthUrlBuilder) (scopes : list string) : AuthUrlBuilder :=
  mkAuthUrlBuilder (ab_state b) (ab_scopes b ++ scopes)%list (ab_pkce_challenge b) (ab_extra_params b).

Definition add_extra_param (b : AuthUrlBuilder) (k v : string) : AuthUrlBuilder :=
  mkAuthUrlBuilder (ab_state b) (ab_scopes b) (ab_pkce_challenge b) (ab_extra_params b ++ [(k, v)])%list.

Definition set_pkce_challenge (b : AuthUrlBuilder) (p : PkcePair) : AuthUrlBuilder :=
  mkAuthUrlBuilder (ab_state b) (ab_scopes b) (Some (pk_challenge p)) (ab_extra_params b).

(** [AuthorizationRequest::url]: [response_type], [client_id], [state], the
    PKCE pair, [redirect_uri], [scope] (space separated), then the extra
    parameters. *)
Definition builder_url (cfg : OAuthConfig) (b : AuthUrlBuilder) : Url * string :=
  let pairs := (
    [("response_type", "code"); ("client_id", oc_client_id cfg); ("state", ab_state b)]
    ++ match ab_pkce_challenge b with
       | Some ch => [("code_challenge", ch); ("code_challenge_method", "S256")]
       | None => []
       end
    ++ match oc_redirect_url cfg with Some r => [("redirect_uri", r)] | None => [] end
    ++ match ab_scopes b with [] => [] | _ => [("scope", String.concat " " (ab_scopes b))] end)%list in
  (mkUrl (oc_auth_url cfg) (pairs ++ ab_extra_params b)%list, ab_state b).

(** [libauth::AuthorizeOptions]. *)
Record AuthorizeOptions := mkAuthorizeOptions {
  pkce : bool;
  extra_params : list (string * string)
}.

(** [libauth::AuthorizationRequest] (the challenge kept as its string). *)
Record AuthorizationRequest := mkAuthorizationRequest {
  ar_url : Url;
  ar_csrf_token : string;
  ar_pkce_challenge : option string;
  ar_pkce_verifier : option string
}.

(** ** Provider clients *)

(** The state of a client: [credentials], [http], the [BasicClient] and the
    channel of [on_refresh_tx] / [on_refresh_rx] (GitHub, HubSpot). *)
Record WatchedClient := mkWatchedClient {
  wc_credentials : Credentials;
  wc_http : HttpClient;
  wc_oauth : OAuthConfig;
  wc_channel : WatchChannel
}.

Definition wc_set_credentials (c : Credentials) (s : WatchedClient) : WatchedClient :=
  mkWatchedClient c (wc_http s) (wc_oauth s) (wc_channel s).
Definition wc_set_http (h : HttpClient) (s : WatchedClient) : WatchedClient :=
  mkWatchedClient (wc_credentials s) h (wc_oauth s) (wc_channel s).
Definition wc_set_channel (ch : WatchChannel) (s : WatchedClient) : WatchedClient :=
  mkWatchedClient (wc_credentials s) (wc_http s) (wc_oauth s) ch.

(** [self.on_refresh_tx.send(self.credentials.clone())?]. *)
Definition wc_publish : M WatchedClient (result unit string) :=
  s <- gets (fun s => s) ;;
  match watch_send (wc_channel s) (wc_credentials s) with
  | Err e => mret (Err (send_error_to_string e))
  | Ok ch => modify (wc_set_channel ch) ;;; emit (EvPublish (wc_credentials s)) ;;; mret (Ok tt)
  end.

Module Github.

Section Client.
(** The token endpoint's answer to a refresh grant for a refresh token. *)
Variable token_endpoint : string -> result TokenResponse RequestTokenError.

(** [GithubClient::refresh_credentials]. *)
Definition refresh_credentials (now : Z) : M WatchedClient (result unit string) :=
  c <- gets wc_credentials ;;
  match refresh_token c with
  | None => mret (Ok tt)
  | Some rt =>
      emit (EvRefreshExchange rt) ;;;
      match token_endpoint rt with
      | Err err => mret (Err (request_token_error_to_string err))
      | Ok new_token =>
          modify (fun s => wc_set_credentials
                             (credentials_refresh_token (wc_credentials s) now new_token) s) ;;;
          match auth_http_client (tr_access_token new_token) with
          | Err e => mret (Err e)
          | Ok http => modify (wc_set_http http) ;;; wc_publish
          end
      end
  end.

#[local] Instance api : ApiClient WatchedClient := {
  credentials := wc_credentials;
  http_client := wc_http;
  refresh_credentials := refresh_credentials
}.
End Client.

(** [GithubClient::authorize]: the options are ignored. *)
Definition authorize (cfg : OAuthConfig) (csrf : string) (p : PkcePair)
    (scopes : list string) (_ : AuthorizeOptions) : AuthorizationRequest :=
  let '(authorize_url, csrf_state) :=
    builder_url cfg (set_pkce_challenge (add_scopes (authorize_url csrf) scopes) p) in
  mkAuthorizationRequest authorize_url csrf_state (Some (pk_challenge p)) (Some (pk_verifier p)).

End Github.

Module Hubspot.

(** The error message HubSpot's [token_exchange] and [refresh_credentials]
    build from a failed token request: for a [Parse] error, the raw body when
    it is UTF-8, else the parser's message. *)
Definition exchange_error_message (err : RequestTokenError) : string :=
  match err with
  | RTParse e og => result_unwrap_or (result_map (fun x => x) (from_utf8 og)) e
  | x => request_token_error_to_string x
  end.

Section Client.
Variable token_endpoint : string -> result TokenResponse RequestTokenError.

(** [HubspotClient::token_exchange]: the token endpoint's answer to the
    authorization-code grant is [code_endpoint code]. *)
Definition token_exchange (code_endpoint : string -> result TokenResponse RequestTokenError)
    (code : string) (_pkce_verifier : option string) : result TokenResponse string :=
  match code_endpoint code with
  | Ok val => Ok val
  | Err err => Err (exchange_error_message err)
  end.

(** [HubspotClient::refresh_credentials]. *)
Definition refresh_credentials (now : Z) : M WatchedClient (result unit string) :=
  c <- gets wc_credentials ;;
  match refresh_token c with
  | None => mret (Ok tt)
  | Some rt =>
      emit (EvRefreshExchange rt) ;;;
      match token_endpoint rt with
      | Err err => mret (Err (exchange_error_message err))
      | Ok new_token =>
          modify (fun s => wc_set_credentials
                             (credentials_refresh_token (wc_credentials s) now new_token) s) ;;;
          match auth_http_client (tr_access_token new_token) with
          | Err e => mret (Err e)
          | Ok http => modify (wc_set_http http) ;;; wc_publish
          end
      end
  end.

#[local] Instance api : ApiClient WatchedClient := {
  credentials := wc_credentials;
  http_client := wc_http;
  refresh_credentials := refresh_credentials
}.
End Client.

(** [HubspotClient::authorize]: scopes, then the options' extra parameters;
    no PKCE. *)
Definition authorize (cfg : OAuthConfig) (csrf : string)
    (scopes : list string) (options : AuthorizeOptions) : AuthorizationRequest :=
  let req := add_scopes (authorize_url csrf) scopes in
  let req := fold_left (fun req kv => add_extra_param req (fst kv) (snd kv))
                       (extra_params options) req in
  let '(authorize_url, csrf_state) := builder_url cfg req in
  mkAuthorizationRequest authorize_url csrf_state None None.

End Hubspot.

Module Reddit.

(** [RedditClient]: the listener is the [on_refresh] callback. *)
Record Client := mkClient {
  credentials_ : Credentials;
  http : HttpClient;
  oauth : OAuthConfig;
  username : option string
}.

Definition set_credentials_ (c : Credentials) (s : Client) : Client :=
  mkClient c (http s) (oauth s) (username s).
Definition set_http (h : HttpClient) (s : Client) : Client :=
  mkClient (credentials_ s) h (oauth s) (username s).

Section Client.
Variable token_endpoint : string -> result TokenResponse RequestTokenError.

(** [RedditClient::refresh_credentials]. *)
Definition refresh_credentials (now : Z) : M Client (result unit string) :=
  c <- gets credentials_ ;;
  match refresh_token c with
  | None => mret (Ok tt)
  | Some rt =>
      emit (EvRefreshExchange rt) ;;;
      match token_endpoint rt with
      | Err err => mret (Err (request_token_error_to_string err))
      | Ok new_token =>
          modify (fun s => set_credentials_
                             (credentials_refresh_token (credentials_ s) now new_token) s) ;;;
          match auth_http_client (tr_access_token new_token) with
          | Err e => mret (Err e)
          | Ok h =>
              modify (set_http h) ;;;
              c' <- gets credentials_ ;;
              emit (EvPublish c') ;;;
              mret (Ok tt)
          end
      end
  end.

#[local] Instance api : ApiClient Client := {
  credentials := credentials_;
  http_client := http;
  refresh_credentials := refresh_credentials
}.
End Client.

(** [RedditClient::authorize]: the options are ignored; [duration=permanent]
    and PKCE are always added. *)
Definition authorize (cfg : OAuthConfig) (csrf : string) (p : PkcePair)
    (scopes : list string) (_ : AuthorizeOptions) : AuthorizationRequest :=
  let '(authorize_url, csrf_state) :=
    builder_url cfg (set_pkce_challenge
                       (add_extra_param (add_scopes (authorize_url csrf) scopes)
                                        "duration" "permanent") p) in
  mkAuthorizationRequest authorize_url csrf_state (Some (pk_challenge p)) (Some (pk_verifier p)).

End Reddit.

(** ** More of the client code *)

(** [ToString] of an unsigned integer ([u32], [usize]): its decimal digits;
    twenty digits cover [u64::MAX]. *)
Definition digit_char (d : Z) : ascii := ascii_of_nat (48 + Z.to_nat d).

Fixpoint dec_aux (fuel : nat) (n : Z) (acc : string) : string :=
  match fuel with
  | O => acc
  | S f =>
      let acc' := String (digit_char (n mod 10)) acc in
      if n <? 10 then acc' else dec_aux f (n / 10) acc'
  end.

Definition uint_to_string (n : Z) : string := dec_aux 20 n "".

Definition unwrap_or {A} (o : option A) (d : A) : A :=
  match o with Some a => a | None => d end.

(** [libauth::OAuthParams]. *)
Record OAuthParams := mkOAuthParams {
  op_auth_url : string;
  op_token_url : option string;
  op_revoke_url : option string;
  op_client_id : string;
  op_client_secret : option string;
  op_redirect_url : option string
}.

Section Constructors.
(** Whether [url::Url::parse] accepts a string. *)
Variable url_parses : string -> bool.

Definition expect_url (u : string) : option unit := if url_parses u then Some tt else None.

(** [libauth::oauth_client]: each URL is parsed with [expect], a failure is a
    panic ([None]). *)
Definition oauth_client (params : OAuthParams) : option OAuthConfig :=
  match expect_url (op_auth_url params) with
  | None => None
  | Some _ =>
      match match op_token_url params with Some u => expect_url u | None => Some tt end with
      | None => None
      | Some _ =>
          match match op_redirect_url params with Some u => expect_url u | None => Some tt end with
          | None => None
          | Some _ =>
              match match op_revoke_url params with Some u => expect_url u | None => Some tt end with
              | None => None
              | Some _ => Some (mkOAuthConfig (op_auth_url params) (op_client_id params)
                                              (op_redirect_url params))
              end
          end
      end
  end.

Definition GITHUB_AUTH_URL : string := "https://github.com/login/oauth/authorize".
Definition GITHUB_TOKEN_URL : string := "https://github.com/login/oauth/access_token".
Definition HUBSPOT_AUTH_URL : string := "https://app.hubspot.com/oauth/authorize".
Definition HUBSPOT_TOKEN_URL : string := "https://api.hubapi.com/oauth/v1/token".

(** [GithubClient::new] and [HubspotClient::new] (they differ only in their
    URLs): [watch::channel(creds.clone())] gives a channel at version 0 whose
    one receiver is the client's [on_refresh_rx]; the fields are evaluated in
    order, so [auth_http_client(..)?] fails before [oauth_client] can panic.
    [None] is a panic, [Some (Err _)] the returned error. *)
Definition watched_new (auth_url token_url client_id client_secret redirect_url : string)
    (creds : Credentials) : option (result WatchedClient string) :=
  let params := mkOAuthParams auth_url (Some token_url) None client_id
                              (Some client_secret) (Some redirect_url) in
  let ch := mkWatchChannel creds 0 1 in
  match auth_http_client (access_token creds) with
  | Err e => Some (Err e)
  | Ok h =>
      match oauth_client params with
      | None => None
      | Some o => Some (Ok (mkWatchedClient creds h o ch))
      end
  end.

Definition github_new := watched_new GITHUB_AUTH_URL GITHUB_TOKEN_URL.
Definition hubspot_new := watched_new HUBSPOT_AUTH_URL HUBSPOT_TOKEN_URL.
End Constructors.

(** [set_credentials] of [GithubClient] and [HubspotClient]:
    [self.credentials = credentials.clone();
     self.http = auth_http_client(..)?; Ok(())]. *)
Definition set_credentials (credentials : Credentials) : M WatchedClient (result unit string) :=
  modify (wc_set_credentials credentials) ;;;
  match auth_http_client (access_token credentials) with
  | Err e => mret (Err e)
  | Ok h => modify (wc_set_http h) ;;; mret (Ok tt)
  end.

(** *** GitHub: endpoints and pagination *)

Definition GITHUB_API_ENDPOINT : string := "https://api.github.com".

(** The endpoint of [GithubClient::get_issue] and [get_repo]. *)
Definition github_repos_endpoint (repo_or_url : string) : string :=
  if String.prefix "https://api.github.com/repos" repo_or_url then repo_or_url
  else GITHUB_API_ENDPOINT ++ "/repos/" ++ repo_or_url.

(** [str::contains]. *)
Fixpoint string_contains (s pat : string) : bool :=
  String.prefix pat s ||
  match s with
  | EmptyString => false
  | String _ s' => string_contains s' pat
  end.

(** A [HeaderMap] as pairs of lower-case names and values; [get] returns the
    first value of a name. *)
Definition HeaderMap := list (string * string).

Definition header_get (name : string) (hs : HeaderMap) : option string :=
  option_map snd (find (fun kv => String.eqb (fst kv) name) hs).

(** [HeaderValue::to_str] succeeds on visible ASCII and tabs. *)
Definition visible_ascii (a : ascii) : bool :=
  let n := Z.of_N (N_of_ascii a) in ((32 <=? n) && (n <? 127)) || (n =? 9).

Definition header_to_str (v : string) : result string unit :=
  if string_forallb visible_ascii v then Ok v else Err tt.

(** The text [rel="next"]. *)
Definition REL_NEXT : string :=
  "rel=" ++ String (ascii_of_nat 34) ("next" ++ String (ascii_of_nat 34) EmptyString).

(** [GithubClient::has_next]. *)
Definition has_next (headers : HeaderMap) : bool :=
  match header_get "link" headers with
  | Some link =>
      let value := result_unwrap_or (header_to_str link) "" in
      string_contains value REL_NEXT
  | None => false
  end.

Definition U32_MAX : Z := 4294967295.

(** *** HubSpot: CRM object queries *)

Inductive CrmObject := Calls | Contacts | Emails | Meetings | Notes | Tasks.

Definition crm_object_eqb (a b : CrmObject) : bool :=
  match a, b with
  | Calls, Calls | Contacts, Contacts | Emails, Emails
  | Meetings, Meetings | Notes, Notes | Tasks, Tasks => true
  | _, _ => false
  end.

(** The [strum] [Display] of [CrmObject]. *)
Definition crm_object_to_string (o : CrmObject) : string :=
  match o with
  | Calls => "calls" | Contacts => "contacts" | Emails => "emails"
  | Meetings => "meetings" | Notes => "notes" | Tasks => "tasks"
  end.

Definition DEFAULT_PROPERTIES : list (CrmObject * list string) := [
  (Calls, ["hs_activity_type"; "hs_attachment_ids"; "hs_call_body";
           "hs_call_callee_object_id"; "hs_call_direction"; "hs_call_disposition";
           "hs_call_duration"; "hs_call_from_number"; "hs_call_recording_url";
           "hs_call_status"; "hs_call_title"; "hs_call_to_number"; "hs_createdate";
           "hs_lastmodifieddate"; "hs_timestamp"; "hubspot_owner_id"]);
  (Notes, ["hs_attachment_ids"; "hs_note_body"; "hs_timestamp"; "hubspot_owner_id"]);
  (Tasks, ["hs_timestamp"; "hs_task_body"; "hubspot_owner_id"; "hs_task_subject";
           "hs_task_status"; "hs_task_priority"; "hs_task_type"]);
  (Emails, ["hs_timestamp"; "hs_email_direction"; "hubspot_owner_id"; "hs_email_html";
            "hs_email_status"; "hs_email_subject"; "hs_email_text"; "hs_attachment_ids";
            "hs_email_from_email"; "hs_email_from_firstname"; "hs_email_from_lastname";
            "hs_email_to_email"; "hs_email_to_firstname"; "hs_email_to_lastname"])
].

(** [hubspot::default_prop_as_string]: the first entry for the object. *)
Fixpoint default_prop_as_string_in (object : CrmObject)
    (table : list (CrmObject * list string)) : option string :=
  match table with
  | [] => None
  | (obj, props) :: rest =>
      if crm_object_eqb object obj then Some (String.concat "," props)
      else default_prop_as_string_in object rest
  end.

Definition default_prop_as_string (object : CrmObject) : option string :=
  default_prop_as_string_in object DEFAULT_PROPERTIES.

Definition HUBSPOT_API_ENDPOINT : string := "https://api.hubapi.com".

(** The [properties] part of the query of [get_object] and [list_objects]. *)
Definition properties_query (object : CrmObject) (properties : list string)
    : list (string * string) :=
  let props := String.concat "," properties in
  match default_prop_as_string object with
  | Some default_props => [("properties", default_props ++ "," ++ props)]
  | None =>
      match properties with
      | [] => []
      | _ => [("properties", props)]
      end
  end.

Definition associations_query (associations : list string) : list (string * string) :=
  match associations with
  | [] => []
  | _ => [("associations", String.concat "," associations)]
  end.

(** The endpoint and query of [HubspotClient::get_object]. *)
Definition get_object_request (object : CrmObject) (id : string)
    (properties associations : list string) : string * list (string * string) :=
  (HUBSPOT_API_ENDPOINT ++ "/crm/v3/objects/" ++ crm_object_to_string object ++ "/" ++ id,
   (properties_query object properties ++ associations_query associations)%list).

(** The endpoint and query of [HubspotClient::list_objects]. *)
Definition list_objects_request (object : CrmObject) (properties associations : list string)
    (after : option string) (limit : option Z) : string * list (string * string) :=
  (HUBSPOT_API_ENDPOINT ++ "/crm/v3/objects/" ++ crm_object_to_string object,
   (properties_query object properties
    ++ [("limit", uint_to_string (unwrap_or limit 10))]
    ++ match after with Some a => [("after", a)] | None => [] end
    ++ associations_query associations)%list).

(** *** Reddit: listings and the cached account id *)

Definition REDDIT_API_ENDPOINT : string := "https://oauth.reddit.com".

(** The endpoint and query of [RedditClient::list_saved] ([kind] ["saved"])
    and [list_upvoted] ([kind] ["upvoted"]) for the account [username]. *)
Definition reddit_listing_request (kind username : string) (after : option string)
    (limit : Z) : string * list (string * string) :=
  (REDDIT_API_ENDPOINT ++ "/user/" ++ username ++ "/" ++ kind,
   ([("t", "all"); ("limit", uint_to_string (Z.min (Z.max limit 1) 100))]
    ++ match after with Some a => [("after", a)] | None => [] end)%list).

Definition reddit_set_username (u : option string) (s : Reddit.Client) : Reddit.Client :=
  Reddit.mkClient (Reddit.credentials_ s) (Reddit.http s) (Reddit.oauth s) u.

(** [RedditClient::set_credentials]. *)
Definition reddit_set_credentials (credentials : Credentials)
    : M Reddit.Client (result unit string) :=
  modify (Reddit.set_credentials_ credentials) ;;;
  match auth_http_client (access_token credentials) with
  | Err e => mret (Err e)
  | Ok h => modify (Reddit.set_http h) ;;; mret (Ok tt)
  end.

Section RedditAccount.
(** [RedditClient::get_user], returning the user's [name]. *)
Variable get_user : M Reddit.Client (result string ApiError).

(** [RedditClient::account_id]. *)
Definition reddit_account_id : M Reddit.Client (result string ApiError) :=
  username <- gets Reddit.username ;;
  match username with
  | Some username => mret (Ok username)
  | None =>
      r <- get_user ;;
      match r with
      | Err e => mret (Err e)
      | Ok name => modify (reddit_set_username (Some name)) ;;; mret (Ok name)
      end
  end.
End RedditAccount.

(** *** Queries as lists of pairs *)

(** How many pairs of a query have the key [k]. *)
Definition query_count (k : string) (q : list (string * string)) : nat :=
  List.length (filter (fun kv => String.eqb (fst kv) k) q).

(** The value of the first pair of a query with the key [k]. *)
Definition query_lookup (k : string) (q : list (string * string)) : option string :=
  option_map snd (find (fun kv => String.eqb (fst kv) k) q).

(** *** Clients as the code builds and drives them *)

(** The [ApiClient] of a watched client whose [refresh_credentials] is
    [refresh] ([Github.api te] and [Hubspot.api te] are of this form). *)
Definition watched_api (refresh : Z -> M WatchedClient (result unit string))
    : ApiClient WatchedClient :=
  {| credentials := wc_credentials; http_client := wc_http; refresh_credentials := refresh |}.

(** The clients reachable from a constructor through [refresh_credentials],
    [set_credentials] and [get_check_client]. *)
Inductive reachable (url_parses : string -> bool)
    (refresh : Z -> M WatchedClient (result unit string)) : WatchedClient -> Prop :=
| reach_new : forall au tu cid sec red creds s,
    watched_new url_parses au tu cid sec red creds = Some (Ok s) -> reachable url_parses refresh s
| reach_refresh : forall now s s' l r,
    reachable url_parses refresh s -> refresh now s = Some (s', l, r) ->
    reachable url_parses refresh s'
| reach_set_credentials : forall c s s' l r,
    reachable url_parses refresh s -> set_credentials c s = Some (s', l, r) ->
    reachable url_parses refresh s'
| reach_get_check_client : forall now s s' l r,
    reachable url_parses refresh s ->
    get_check_client (api := watched_api refresh) now s = Some (s', l, r) ->
    reachable url_parses refresh s'.

(** * Properties *)

(** ** Arithmetic of the duration types *)

Ltac bool_specs :=
  repeat match goal with
  | |- context [?a <? ?b] => destruct (Z.ltb_spec a b)
  | |- context [?a <=? ?b] => destruct (Z.leb_spec a b)
  | |- context [?a =? ?b] => destruct (Z.eqb_spec a b)
  | |- context [?a >? ?b] => rewrite (Z.gtb_ltb a b)
  end; simpl.

(** The derived order of [chrono::Duration] on a difference of instants is
    the order of the lengths in nanoseconds. *)
Lemma chrono_gtb_datetime_sub (now t s n : Z) :
  0 <= n < NANOS_PER_SEC ->
  chrono_gtb (datetime_sub now t) (mkChronoDuration s n) = (now - t >? s * NANOS_PER_SEC + n).
Proof.
  intros Hn. unfold chrono_gtb, datetime_sub, NANOS_PER_SEC in *; simpl.
  pose proof (Z.div_mod (now - t) 1000000000 ltac:(lia)) as Hdm.
  pose proof (Z.mod_pos_bound (now - t) 1000000000 ltac:(lia)) as Hb.
  set (q := (now - t) / 1000000000) in *.
  set (m := (now - t) mod 1000000000) in *.
  bool_specs; try reflexivity; exfalso; nia.
Qed.

(** [chrono::Duration::from_std] succeeds exactly on the durations of at most
    [i64::MAX] milliseconds, and keeps their seconds and nanoseconds. *)
Lemma chrono_from_std_spec (d : StdDuration) :
  std_duration_wf d ->
  (std_total_nanos d <= I64_MAX * 1000000 ->
     chrono_from_std d = Ok (mkChronoDuration (sd_secs d) (sd_nanos d))) /\
  (I64_MAX * 1000000 < std_total_nanos d -> chrono_from_std d = Err OutOfRange).
Proof.
  destruct d as [s n]; unfold std_duration_wf, std_total_nanos, chrono_from_std,
    chrono_gtb, CHRONO_MAX, I64_MAX, U64_MAX, NANOS_PER_SEC; simpl; intros Hwf.
  change (9223372036854775807 / 1000) with 9223372036854775.
  change (9223372036854775807 mod 1000 * 1000000) with 807000000.
  split; intros Hle; bool_specs; try reflexivity; exfalso; lia.
Qed.

(** ** [Credentials::refresh_token] *)

(** C1 (counterexample): a credential holding the refresh token ["r1"],
    updated from a token response without refresh token, holds none. *)
Lemma C1_refresh_token_not_preserved :
  refresh_token
    (credentials_refresh_token (mkCredentials 0 "a0" (Some "r1") None) 10
       (mkTokenResponse "a1" None (Some 3600))) <> Some "r1".
Proof. simpl. discriminate. Qed.

(** C1 (amended): [Credentials::refresh_token] replaces every field from the
    token response: the refresh token becomes the response's own one
    ([None] when the response has none), whatever the credential held. *)
Theorem C1_refresh_token_replaced (c : Credentials) (now : Z) (resp : TokenResponse) :
  refresh_token (credentials_refresh_token c now resp) = tr_refresh_token resp /\
  access_token (credentials_refresh_token c now resp) = tr_access_token resp /\
  expires_in (credentials_refresh_token c now resp) = tr_expires_in resp /\
  requested_at (credentials_refresh_token c now resp) = now.
Proof. repeat split. Qed.

(** ** [Credentials::is_expired] *)

(** C4 (counterexample): a credential whose lifetime is [u64::MAX] seconds,
    checked at the instant it was requested ([now - requested_at = 0], so
    not beyond the lifetime), does not give [false]: [is_expired] panics. *)
Lemma C4_is_expired_huge_lifetime_panics :
  is_expired (mkCredentials 0 "a" None (Some (mkStdDuration U64_MAX 0))) 0 = None /\
  is_expired (mkCredentials 0 "a" None (Some (mkStdDuration U64_MAX 0))) 0 <> Some false.
Proof. split; [reflexivity | discriminate]. Qed.

(** C4 (amended): [is_expired] is [false] when there is no lifetime; for a
    lifetime [d] of at most [i64::MAX] milliseconds it is
    [now - requested_at > d] (so [false] at equality); for a longer lifetime
    it panics instead of returning a value. *)
Theorem C4_is_expired_spec (c : Credentials) (now : Z) :
  (expires_in c = None -> is_expired c now = Some false) /\
  (forall d, expires_in c = Some d -> std_duration_wf d ->
     std_total_nanos d <= I64_MAX * 1000000 ->
     is_expired c now = Some (now - requested_at c >? std_total_nanos d) /\
     (now - requested_at c = std_total_nanos d -> is_expired c now = Some false)) /\
  (forall d, expires_in c = Some d -> std_duration_wf d ->
     I64_MAX * 1000000 < std_total_nanos d -> is_expired c now = None).
Proof.
  split; [|split].
  - intros He. unfold is_expired. rewrite He. reflexivity.
  - intros d He Hwf Hle.
    assert (Hv : is_expired c now = Some (now - requested_at c >? std_total_nanos d)).
    { unfold is_expired. rewrite He.
      destruct (chrono_from_std_spec d Hwf) as [Hok _]. rewrite (Hok Hle).
      rewrite chrono_gtb_datetime_sub by (destruct Hwf; lia). reflexivity. }
    split; [exact Hv|]. intros Heq. rewrite Hv, Heq. rewrite Z.gtb_ltb, Z.ltb_irrefl.
    reflexivity.
  - intros d He Hwf Hgt. unfold is_expired. rewrite He.
    destruct (chrono_from_std_spec d Hwf) as [_ Hbad]. rewrite (Hbad Hgt). reflexivity.
Qed.

Lemma C4_is_expired_spec_witness :
  is_expired (mkCredentials 0 "a" None (Some (mkStdDuration 60 0))) (60 * NANOS_PER_SEC)
    = Some false /\
  is_expired (mkCredentials 0 "a" None (Some (mkStdDuration 60 0))) (60 * NANOS_PER_SEC)
    = Some (60 * NANOS_PER_SEC - 0 >? std_total_nanos (mkStdDuration 60 0)) /\
  is_expired (mkCredentials 0 "a" None (Some (mkStdDuration U64_MAX 0))) 0 = None.
Proof.
  destruct (proj1 (proj2 (C4_is_expired_spec (mkCredentials 0 "a" None (Some (mkStdDuration 60 0)))
                    (60 * NANOS_PER_SEC))) (mkStdDuration 60 0) eq_refl) as [Hv Hb].
  - unfold std_duration_wf, U64_MAX, NANOS_PER_SEC; simpl; lia.
  - unfold std_total_nanos, I64_MAX, NANOS_PER_SEC; simpl; lia.
  - split; [apply Hb; reflexivity | split; [exact Hv|]].
    apply (proj2 (proj2 (C4_is_expired_spec
             (mkCredentials 0 "a" None (Some (mkStdDuration U64_MAX 0))) 0))
             (mkStdDuration U64_MAX 0) eq_refl).
    + unfold std_duration_wf, U64_MAX, NANOS_PER_SEC; simpl; lia.
    + unfold std_total_nanos, I64_MAX, U64_MAX, NANOS_PER_SEC; simpl; lia.
Defined.

(** C10: for a well-formed lifetime [d], [is_expired] panics (the [expect]
    of [chrono::Duration::from_std]) exactly when [d] exceeds [i64::MAX]
    milliseconds, and returns a boolean otherwise. *)
Theorem C10_is_expired_partial (c : Credentials) (now : Z) (d : StdDuration) :
  expires_in c = Some d -> std_duration_wf d ->
  (is_expired c now = None <-> I64_MAX * 1000000 < std_total_nanos d) /\
  (std_total_nanos d <= I64_MAX * 1000000 -> exists b, is_expired c now = Some b).
Proof.
  intros He Hwf. destruct (chrono_from_std_spec d Hwf) as [Hok Hbad].
  unfold is_expired. rewrite He.
  destruct (Z.le_gt_cases (std_total_nanos d) (I64_MAX * 1000000)) as [Hle | Hgt].
  - rewrite (Hok Hle). split.
    + split; [discriminate | lia].
    + intros _. eexists; reflexivity.
  - rewrite (Hbad Hgt). split.
    + split; [intros _; exact Hgt | reflexivity].
    + intros Hle; lia.
Qed.

Lemma C10_is_expired_partial_witness :
  (is_expired (mkCredentials 0 "a" None (Some (mkStdDuration U64_MAX 0))) 0 = None <->
   I64_MAX * 1000000 < std_total_nanos (mkStdDuration U64_MAX 0)) /\
  (std_total_nanos (mkStdDuration U64_MAX 0) <= I64_MAX * 1000000 ->
   exists b, is_expired (mkCredentials 0 "a" None (Some (mkStdDuration U64_MAX 0))) 0 = Some b).
Proof.
  apply (C10_is_expired_partial (mkCredentials 0 "a" None (Some (mkStdDuration U64_MAX 0)))
           0 (mkStdDuration U64_MAX 0) eq_refl).
  unfold std_duration_wf, U64_MAX, NANOS_PER_SEC; simpl; lia.
Defined.

(** ** Sample values used by the witnesses *)

Definition demo_oauth : OAuthConfig :=
  mkOAuthConfig "https://github.com/login/oauth/authorize" "cid" (Some "http://127.0.0.1:8080").

Definition demo_client (c : Credentials) : WatchedClient :=
  mkWatchedClient c (mkHttpClient (access_token c)) demo_oauth (mkWatchChannel c 0 1).

(** A credential with a one-minute lifetime, requested at instant 0. *)
Definition demo_creds (rt : option string) : Credentials :=
  mkCredentials 0 "tok" rt (Some (mkStdDuration 60 0)).

Definition demo_token_endpoint (access : string) (rt : string)
    : result TokenResponse RequestTokenError :=
  Ok (mkTokenResponse access None (Some 3600)).

Definition failing_token_endpoint (rt : string) : result TokenResponse RequestTokenError :=
  Err (RTParse "expected value at line 1 column 1" [Byte.x62; Byte.x61; Byte.x64]).

(** ** [ApiClient::get_check_client] *)

Section GetCheckClient.
Context {S : Type} (api : ApiClient S).

Lemma get_check_client_unfold (now : Z) (s : S) :
  get_check_client now s =
  match is_expired (credentials s) now with
  | None => None
  | Some false => Some (s, [], Ok (http_client s))
  | Some true =>
      match refresh_credentials now s with
      | None => None
      | Some (s', l, Err err) =>
          Some (s', (l ++ [])%list, Err (AuthError ("Unable to refresh credentials: " ++ err)))
      | Some (s', l, Ok _) => Some (s', (l ++ [])%list, Ok (http_client s'))
      end
  end.
Proof.
  unfold get_check_client, mbind, gets, lift_panic, mret, panic; simpl.
  destruct (is_expired (credentials s) now) as [[|]|]; simpl; try reflexivity.
  destruct (refresh_credentials now s) as [[[s' l] [u|e]]|]; reflexivity.
Qed.

End GetCheckClient.

(** C3: on a credential that is not expired, [get_check_client] returns the
    configured HTTP client and leaves the client untouched, with no event
    (no refresh, no network call), whatever [refresh_credentials] does; on an
    expired one it runs [refresh_credentials] and turns its error [err] into
    [AuthError("Unable to refresh credentials: {err}")]. *)
Theorem C3_get_check_client_gate {S : Type} (api : ApiClient S) (now : Z) (s : S) :
  (is_expired (credentials s) now = Some false ->
     get_check_client now s = Some (s, [], Ok (http_client s))) /\
  (is_expired (credentials s) now = Some true ->
     (forall s' l err, refresh_credentials now s = Some (s', l, Err err) ->
        get_check_client now s =
        Some (s', l, Err (AuthError ("Unable to refresh credentials: " ++ err)))) /\
     (forall s' l u, refresh_credentials now s = Some (s', l, Ok u) ->
        get_check_client now s = Some (s', l, Ok (http_client s')))).
Proof.
  rewrite get_check_client_unfold. split.
  - intros He. rewrite He. reflexivity.
  - intros He. rewrite He. split; intros s' l x Hr; rewrite Hr, app_nil_r; reflexivity.
Qed.

Lemma C3_get_check_client_gate_witness :
  get_check_client (api := Github.api failing_token_endpoint) 0 (demo_client (demo_creds (Some "r1")))
    = Some (demo_client (demo_creds (Some "r1")), [], Ok (mkHttpClient "tok")) /\
  get_check_client (api := Github.api failing_token_endpoint) (61 * NANOS_PER_SEC)
      (demo_client (demo_creds (Some "r1")))
    = Some (demo_client (demo_creds (Some "r1")), [EvRefreshExchange "r1"],
            Err (AuthError ("Unable to refresh credentials: " ++ "Failed to parse server response"))).
Proof.
  split.
  - apply (C3_get_check_client_gate (Github.api failing_token_endpoint) 0
             (demo_client (demo_creds (Some "r1")))).
    vm_compute. reflexivity.
  - apply (C3_get_check_client_gate (Github.api failing_token_endpoint) (61 * NANOS_PER_SEC)
             (demo_client (demo_creds (Some "r1")))).
    + vm_compute. reflexivity.
    + vm_compute. reflexivity.
Defined.

(** ** [refresh_credentials] without a refresh token *)

Definition demo_reddit (c : Credentials) : Reddit.Client :=
  Reddit.mkClient c (mkHttpClient (access_token c)) demo_oauth None.

(** C6: with no refresh token, the [refresh_credentials] of GitHub, HubSpot
    and Reddit succeed with no event (no token exchange, nothing published)
    and leave the client as it is; [get_check_client] on such a client with
    an expired credential returns the client's existing HTTP client. *)
Theorem C6_refresh_without_refresh_token
    (te : string -> result TokenResponse RequestTokenError) (now : Z)
    (s : WatchedClient) (r : Reddit.Client) :
  refresh_token (wc_credentials s) = None ->
  refresh_token (Reddit.credentials_ r) = None ->
  Github.refresh_credentials te now s = Some (s, [], Ok tt) /\
  Hubspot.refresh_credentials te now s = Some (s, [], Ok tt) /\
  Reddit.refresh_credentials te now r = Some (r, [], Ok tt) /\
  (is_expired (wc_credentials s) now = Some true ->
     get_check_client (api := Github.api te) now s = Some (s, [], Ok (wc_http s)) /\
     get_check_client (api := Hubspot.api te) now s = Some (s, [], Ok (wc_http s))) /\
  (is_expired (Reddit.credentials_ r) now = Some true ->
     get_check_client (api := Reddit.api te) now r = Some (r, [], Ok (Reddit.http r))).
Proof.
  intros Hs Hr.
  assert (Hg : Github.refresh_credentials te now s = Some (s, [], Ok tt)).
  { unfold Github.refresh_credentials, mbind, gets, mret. rewrite Hs. reflexivity. }
  assert (Hh : Hubspot.refresh_credentials te now s = Some (s, [], Ok tt)).
  { unfold Hubspot.refresh_credentials, mbind, gets, mret. rewrite Hs. reflexivity. }
  assert (Hd : Reddit.refresh_credentials te now r = Some (r, [], Ok tt)).
  { unfold Reddit.refresh_credentials, mbind, gets, mret. rewrite Hr. reflexivity. }
  split; [exact Hg|]. split; [exact Hh|]. split; [exact Hd|]. split.
  - intros He. split; rewrite get_check_client_unfold; simpl.
    + rewrite He. change (Github.refresh_credentials te now s = Some (s, [], Ok tt)) in Hg.
      simpl in Hg |- *. rewrite Hg. reflexivity.
    + rewrite He. simpl in Hh |- *. rewrite Hh. reflexivity.
  - intros He. rewrite get_check_client_unfold; simpl.
    rewrite He. simpl in Hd |- *. rewrite Hd. reflexivity.
Qed.

Lemma C6_refresh_without_refresh_token_witness :
  get_check_client (api := Github.api failing_token_endpoint) (61 * NANOS_PER_SEC)
      (demo_client (demo_creds None))
    = Some (demo_client (demo_creds None), [], Ok (mkHttpClient "tok")).
Proof.
  apply (C6_refresh_without_refresh_token failing_token_endpoint (61 * NANOS_PER_SEC)
           (demo_client (demo_creds None)) (demo_reddit (demo_creds None))
           eq_refl eq_refl).
  vm_compute. reflexivity.
Defined.

(** ** A failed refresh grant *)

(** C9: when the token endpoint rejects the refresh grant, the
    [refresh_credentials] of GitHub, HubSpot and Reddit return an error built
    from the exchange error (its display for GitHub and Reddit, HubSpot's
    message extraction for HubSpot), leave the client (credentials, HTTP
    client, channel) unchanged, and publish nothing: the only event is the
    refresh grant itself. *)
Theorem C9_refresh_failure_atomic
    (te : string -> result TokenResponse RequestTokenError) (now : Z)
    (s : WatchedClient) (r : Reddit.Client) (rt rt' : string) (e e' : RequestTokenError) :
  refresh_token (wc_credentials s) = Some rt -> te rt = Err e ->
  refresh_token (Reddit.credentials_ r) = Some rt' -> te rt' = Err e' ->
  Github.refresh_credentials te now s =
    Some (s, [EvRefreshExchange rt], Err (request_token_error_to_string e)) /\
  Hubspot.refresh_credentials te now s =
    Some (s, [EvRefreshExchange rt], Err (Hubspot.exchange_error_message e)) /\
  Reddit.refresh_credentials te now r =
    Some (r, [EvRefreshExchange rt'], Err (request_token_error_to_string e')).
Proof.
  intros Hs He Hr He'.
  unfold Github.refresh_credentials, Hubspot.refresh_credentials, Reddit.refresh_credentials,
    mbind, gets, mret, emit.
  rewrite Hs, He, Hr, He'. repeat split.
Qed.

Lemma C9_refresh_failure_atomic_witness :
  Hubspot.refresh_credentials failing_token_endpoint 0 (demo_client (demo_creds (Some "r1"))) =
    Some (demo_client (demo_creds (Some "r1")), [EvRefreshExchange "r1"],
          Err (Hubspot.exchange_error_message
                 (RTParse "expected value at line 1 column 1" [Byte.x62; Byte.x61; Byte.x64]))).
Proof.
  apply (C9_refresh_failure_atomic failing_token_endpoint 0
           (demo_client (demo_creds (Some "r1"))) (demo_reddit (demo_creds (Some "r1")))
           "r1" "r1" _ _ eq_refl eq_refl eq_refl eq_refl).
Defined.

(** ** Publishing the refreshed credentials *)

Definition is_publish (e : Event) : bool :=
  match e with EvPublish _ => true | _ => false end.

(** The number of values published in a run. *)
Definition count_publish (l : list Event) : nat := List.length (filter is_publish l).

(** An access token that is no valid header value (it holds a line feed). *)
Definition bad_access_token : string := String "a" (String (ascii_of_nat 10) EmptyString).

(** C7 (counterexample): the token endpoint grants the refresh, but its
    access token cannot be put in a header: GitHub's [refresh_credentials]
    fails in [auth_http_client] and publishes nothing. *)
Lemma C7_successful_exchange_without_publish :
  match Github.refresh_credentials (demo_token_endpoint bad_access_token) 0
          (demo_client (demo_creds (Some "r1"))) with
  | Some (_, l, Err _) => In (EvRefreshExchange "r1") l /\ count_publish l = 0%nat
  | _ => False
  end.
Proof. vm_compute. split; [left; reflexivity | reflexivity]. Qed.

Ltac unfold_watched_refresh :=
  cbv [Github.refresh_credentials Hubspot.refresh_credentials mbind modify wc_publish gets
       mret emit watch_send wc_set_http wc_set_credentials wc_set_channel].

(** C7 (amended): once the token endpoint grants the refresh, GitHub's and
    HubSpot's [refresh_credentials] store the new credential [c'] and
    - when its access token makes a valid header and the channel has a
      receiver (the client's own [on_refresh_rx]), publish [c'] exactly once
      and return [Ok];
    - when the access token makes no valid header, return that error having
      published nothing;
    - when the channel has no receiver, return the send error: a failed
      publish is reported through [?]. *)
Theorem C7_refresh_publishes_once
    (te : string -> result TokenResponse RequestTokenError) (now : Z)
    (s : WatchedClient) (rt : string) (tok : TokenResponse)
    (refresh : M WatchedClient (result unit string)) :
  refresh = Github.refresh_credentials te now \/ refresh = Hubspot.refresh_credentials te now ->
  refresh_token (wc_credentials s) = Some rt -> te rt = Ok tok ->
  let c' := credentials_refresh_token (wc_credentials s) now tok in
  (forall h, auth_http_client (tr_access_token tok) = Ok h ->
     (0 < w_receivers (wc_channel s))%nat ->
     refresh s =
       Some (mkWatchedClient c' h (wc_oauth s)
               (mkWatchChannel c' (S (w_version (wc_channel s))) (w_receivers (wc_channel s))),
             [EvRefreshExchange rt; EvPublish c'], Ok tt) /\
     count_publish [EvRefreshExchange rt; EvPublish c'] = 1%nat) /\
  (forall m, auth_http_client (tr_access_token tok) = Err m ->
     refresh s = Some (wc_set_credentials c' s, [EvRefreshExchange rt], Err m)) /\
  (forall h, auth_http_client (tr_access_token tok) = Ok h ->
     w_receivers (wc_channel s) = 0%nat ->
     refresh s = Some (mkWatchedClient c' h (wc_oauth s) (wc_channel s),
                       [EvRefreshExchange rt], Err "channel closed")).
Proof.
  intros Hr Hs He c'.
  split; [|split]; intros x Hx; [intros Hn | | intros Hn];
    (destruct Hr as [-> | ->]; unfold_watched_refresh; rewrite Hs, He, Hx; simpl).
  - destruct (w_receivers (wc_channel s)); [lia|]. split; reflexivity.
  - destruct (w_receivers (wc_channel s)); [lia|]. split; reflexivity.
  - reflexivity.
  - reflexivity.
  - rewrite Hn. reflexivity.
  - rewrite Hn. reflexivity.
Qed.

Lemma C7_refresh_publishes_once_witness :
  Github.refresh_credentials (demo_token_endpoint "tok2") 5 (demo_client (demo_creds (Some "r1")))
  = Some (mkWatchedClient
            (credentials_refresh_token (demo_creds (Some "r1")) 5 (mkTokenResponse "tok2" None (Some 3600)))
            (mkHttpClient "tok2") demo_oauth
            (mkWatchChannel
               (credentials_refresh_token (demo_creds (Some "r1")) 5
                  (mkTokenResponse "tok2" None (Some 3600))) 1 1),
          [EvRefreshExchange "r1";
           EvPublish (credentials_refresh_token (demo_creds (Some "r1")) 5
                        (mkTokenResponse "tok2" None (Some 3600)))], Ok tt).
Proof.
  destruct (C7_refresh_publishes_once (demo_token_endpoint "tok2") 5
              (demo_client (demo_creds (Some "r1"))) "r1" (mkTokenResponse "tok2" None (Some 3600))
              _ (or_introl eq_refl) eq_refl eq_refl) as [H1 _].
  apply (H1 (mkHttpClient "tok2")); [vm_compute; reflexivity | simpl; lia].
Defined.

(** ** HubSpot's error message extraction *)

(** The UTF-8 check on sample inputs: ASCII, a two-byte ["é"], a lone
    continuation byte, a surrogate and an overlong form. *)
Example utf8_valid_samples :
  utf8_valid [Byte.x7b; Byte.x7d] = true /\
  utf8_valid [Byte.xc3; Byte.xa9] = true /\
  utf8_valid [Byte.x80] = false /\
  utf8_valid [Byte.xed; Byte.xa0; Byte.x80] = false /\
  utf8_valid [Byte.xc0; Byte.xaf] = false /\
  utf8_valid [Byte.xf0; Byte.x9f; Byte.x98; Byte.x80] = true.
Proof. vm_compute. repeat split. Qed.

(** C8: when HubSpot's token endpoint answers with a body that does not
    parse as the OAuth error JSON, [token_exchange] fails with the body
    itself when it is UTF-8 and with the parser's message otherwise; the
    refresh grant of [refresh_credentials] reports the same message. *)
Theorem C8_hubspot_parse_error_message
    (code_endpoint te : string -> result TokenResponse RequestTokenError)
    (code : string) (pv : option string) (perr : string) (og : list Byte.byte) :
  code_endpoint code = Err (RTParse perr og) ->
  (forall msg, from_utf8 og = Ok msg -> Hubspot.token_exchange code_endpoint code pv = Err msg) /\
  (forall u, from_utf8 og = Err u -> Hubspot.token_exchange code_endpoint code pv = Err perr) /\
  (forall now s rt, refresh_token (wc_credentials s) = Some rt -> te rt = Err (RTParse perr og) ->
     Hubspot.refresh_credentials te now s =
       Some (s, [EvRefreshExchange rt],
             Err (match from_utf8 og with Ok msg => msg | Err _ => perr end))).
Proof.
  intros Hc. unfold Hubspot.token_exchange, Hubspot.exchange_error_message. rewrite Hc.
  split; [|split].
  - intros msg Hm. rewrite Hm. reflexivity.
  - intros u Hu. rewrite Hu. reflexivity.
  - intros now s rt Hs He. unfold Hubspot.refresh_credentials; cbv [mbind gets emit mret].
    rewrite Hs, He. simpl. destruct (from_utf8 og); reflexivity.
Qed.

Definition html_body : list Byte.byte :=
  [Byte.x3c; Byte.x68; Byte.x31; Byte.x3e]. (* "<h1>" *)

Lemma C8_hubspot_parse_error_message_witness :
  Hubspot.token_exchange (fun _ => Err (RTParse "expected value" html_body)) "code" None
    = Err "<h1>" /\
  Hubspot.token_exchange (fun _ => Err (RTParse "expected value" [Byte.xff])) "code" None
    = Err "expected value".
Proof.
  split.
  - apply (proj1 (C8_hubspot_parse_error_message
                    (fun _ => Err (RTParse "expected value" html_body)) failing_token_endpoint
                    "code" None "expected value" html_body eq_refl)).
    vm_compute. reflexivity.
  - apply (proj1 (proj2 (C8_hubspot_parse_error_message
                    (fun _ => Err (RTParse "expected value" [Byte.xff])) failing_token_endpoint
                    "code" None "expected value" [Byte.xff] eq_refl)) InvalidUtf8).
    vm_compute. reflexivity.
Defined.

(** ** [ApiClient::call_json] on a response *)

(** Matching a status against [401] is testing it for equality with it. *)
Lemma status_401_match {A : Type} (z : Z) (a b : A) :
  match z with 401 => a | _ => b end = if z =? 401 then a else b.
Proof.
  destruct z as [|p|p]; try reflexivity.
  repeat (destruct p as [p|p|]; try reflexivity).
Qed.

(** C2 (amended): once [get_check_client] handed over a client and the
    request got a response, [call_json] classifies it by its status: in
    400..599, [AuthError("Unauthorized")] exactly for 401 and otherwise a
    [RequestError] carrying the status and the URL (not the body); outside
    400..599 (1xx, 2xx, 3xx) the body is decoded as JSON. *)
Theorem C2_call_json_status {S : Type} (api : ApiClient S)
    (send : HttpClient -> string -> list (string * string) -> result Response ReqwestError)
    (json_decode : list Byte.byte -> option JsonValue)
    (now : Z) (endpoint : string) (query : list (string * string))
    (s s1 : S) (l1 : list Event) (cl : HttpClient) (resp : Response) :
  get_check_client now s = Some (s1, l1, Ok cl) ->
  send cl endpoint query = Ok resp ->
  let ev := (l1 ++ [EvRequest endpoint])%list in
  (400 <= resp_status resp <= 599 -> resp_status resp = 401 ->
     call_json send json_decode now endpoint query s =
       Some (s1, ev, Err (AuthError "Unauthorized"))) /\
  (400 <= resp_status resp <= 599 -> resp_status resp <> 401 ->
     call_json send json_decode now endpoint query s =
       Some (s1, ev, Err (RequestError (mkReqwestError (KStatus (resp_status resp)) (resp_url resp))))) /\
  (~ (400 <= resp_status resp <= 599) ->
     call_json send json_decode now endpoint query s =
       Some (s1, ev, match json_decode (resp_body resp) with
                     | Some v => Ok v
                     | None => Err (RequestError (mkReqwestError KDecode (resp_url resp)))
                     end)).
Proof.
  intros Hg Hs ev. subst ev.
  cbv [call_json call mbind mret emit]. rewrite Hg, Hs.
  unfold error_for_status, response_json, reqwest_error_status; simpl.
  split; [|split]; intros Hr; [intros H401 | intros H401 |]; bool_specs;
    try (exfalso; lia).
  - rewrite H401. simpl. rewrite <- app_assoc. reflexivity.
  - rewrite status_401_match. destruct (Z.eqb_spec (resp_status resp) 401); [lia|].
    rewrite <- app_assoc. reflexivity.
  - destruct (json_decode (resp_body resp)); rewrite <- app_assoc; reflexivity.
  - destruct (json_decode (resp_body resp)); rewrite <- app_assoc; reflexivity.
Qed.

(** A network that answers every request with [status] and [body]. *)
Definition demo_send (status : Z) (body : list Byte.byte)
    : HttpClient -> string -> list (string * string) -> result Response ReqwestError :=
  fun _ _ _ => Ok (mkResponse "https://api.github.com/user" status body).

(** A decoder that accepts the body ["{}"] only. *)
Definition demo_decode (b : list Byte.byte) : option JsonValue :=
  match b with [Byte.x7b; Byte.x7d] => Some (JObject []) | _ => None end.

Definition demo_call_json (status : Z) (body : list Byte.byte) :=
  call_json (api := Github.api failing_token_endpoint) (demo_send status body) demo_decode
    0 "https://api.github.com/user" [] (demo_client (demo_creds (Some "r1"))).

(** C2 (counterexample): a 404 answer gives the same error whatever its body
    (the body is not carried), and a 300 answer with a JSON body is no error
    at all. *)
Lemma C2_call_json_body_dropped_and_3xx :
  demo_call_json 404 [Byte.x61] = demo_call_json 404 [Byte.x62] /\
  match demo_call_json 404 [Byte.x61] with
  | Some (_, _, Err (RequestError _)) => True
  | _ => False
  end /\
  match demo_call_json 300 [Byte.x7b; Byte.x7d] with
  | Some (_, _, Ok _) => True
  | _ => False
  end.
Proof. vm_compute. repeat split. Qed.

Lemma C2_call_json_status_witness :
  demo_call_json 401 [] =
    Some (demo_client (demo_creds (Some "r1")),
          [EvRequest "https://api.github.com/user"], Err (AuthError "Unauthorized")).
Proof.
  apply (proj1 (C2_call_json_status (Github.api failing_token_endpoint) (demo_send 401 [])
                  demo_decode 0 "https://api.github.com/user" []
                  (demo_client (demo_creds (Some "r1"))) (demo_client (demo_creds (Some "r1")))
                  [] (mkHttpClient "tok") (mkResponse "https://api.github.com/user" 401 [])
                  ltac:(vm_compute; reflexivity) eq_refl)).
  - simpl; lia.
  - reflexivity.
Defined.

(** ** [authorize] *)

(** Whether the query of a URL has the pair [k=v], or the key [k]. *)
Definition has_param (k v : string) (u : Url) : bool :=
  existsb (fun kv => String.eqb (fst kv) k && String.eqb (snd kv) v) (url_query u).

Definition has_key (k : string) (u : Url) : bool :=
  existsb (fun kv => String.eqb (fst kv) k) (url_query u).

Lemma has_param_In (k v : string) (u : Url) :
  In (k, v) (url_query u) -> has_param k v u = true.
Proof.
  intros Hin. unfold has_param. apply existsb_exists. exists (k, v).
  split; [exact Hin|]. simpl. rewrite !String.eqb_refl. reflexivity.
Qed.

Lemma fold_add_extra_params (l : list (string * string)) (b : AuthUrlBuilder) :
  fold_left (fun req kv => add_extra_param req (fst kv) (snd kv)) l b =
  mkAuthUrlBuilder (ab_state b) (ab_scopes b) (ab_pkce_challenge b) (ab_extra_params b ++ l).
Proof.
  revert b. induction l as [|[k v] l IH]; intros b; simpl.
  - rewrite app_nil_r. destruct b; reflexivity.
  - rewrite IH. simpl. rewrite <- app_assoc. reflexivity.
Qed.

Definition demo_options : AuthorizeOptions := mkAuthorizeOptions true [("duration", "permanent")].

Definition demo_pkce : PkcePair := mkPkcePair "E9Melhoa2Owv" "dBjftJeZ4CVP".

(** C5 (counterexample): with [pkce: true] and [duration=permanent] in the
    options, GitHub's URL has no [duration=permanent] and HubSpot's request
    has no PKCE verifier (nor a [code_challenge]). *)
Lemma C5_authorize_ignores_options :
  has_param "duration" "permanent"
    (ar_url (Github.authorize demo_oauth "st" demo_pkce ["user"] demo_options)) = false /\
  ar_pkce_verifier (Hubspot.authorize demo_oauth "st" ["crm"] demo_options) = None /\
  has_key "code_challenge" (ar_url (Hubspot.authorize demo_oauth "st" ["crm"] demo_options)) = false.
Proof. vm_compute. repeat split. Qed.

(** C5 (amended): each provider fixes PKCE and extra parameters itself.
    GitHub and Reddit ignore the options: both always put an S256
    [code_challenge] in the URL and return the verifier; Reddit always
    adds [duration=permanent], GitHub's URL never has a [duration] key. HubSpot appends the options' extra parameters
    to the URL but never uses PKCE: no challenge, no verifier, and no
    [code_challenge] key beyond one the extra parameters bring. *)
Theorem C5_authorize_per_provider (cfg : OAuthConfig) (csrf : string) (p : PkcePair)
    (scopes : list string) (o o' : AuthorizeOptions) :
  let g := Github.authorize cfg csrf p scopes o in
  let r := Reddit.authorize cfg csrf p scopes o in
  let h := Hubspot.authorize cfg csrf scopes o in
  (has_param "code_challenge" (pk_challenge p) (ar_url g) = true /\
   has_param "code_challenge_method" "S256" (ar_url g) = true /\
   ar_pkce_verifier g = Some (pk_verifier p) /\
   has_key "duration" (ar_url g) = false /\
   has_param "duration" "permanent" (ar_url g) = false /\
   Github.authorize cfg csrf p scopes o' = g) /\
  (has_param "code_challenge" (pk_challenge p) (ar_url r) = true /\
   has_param "code_challenge_method" "S256" (ar_url r) = true /\
   has_param "duration" "permanent" (ar_url r) = true /\
   ar_pkce_verifier r = Some (pk_verifier p) /\
   Reddit.authorize cfg csrf p scopes o' = r) /\
  ((forall k v, In (k, v) (extra_params o) -> has_param k v (ar_url h) = true) /\
   has_key "code_challenge" (ar_url h) =
     existsb (fun kv => String.eqb (fst kv) "code_challenge") (extra_params o) /\
   ar_pkce_challenge h = None /\ ar_pkce_verifier h = None).
Proof.
  intros g r h. subst g r h.
  unfold Github.authorize, Reddit.authorize, Hubspot.authorize.
  rewrite fold_add_extra_params.
  unfold builder_url; cbn -[app has_param has_key existsb String.concat].
  repeat split; try reflexivity;
    try (apply has_param_In; cbn -[String.concat]; rewrite ?in_app_iff; simpl; tauto).
  - unfold has_key. cbn -[String.concat].
    destruct (oc_redirect_url cfg); destruct scopes; reflexivity.
  - unfold has_param. cbn -[String.concat].
    destruct (oc_redirect_url cfg); destruct scopes; reflexivity.
  - intros k v Hin. apply has_param_In. cbn -[String.concat].
    rewrite !in_app_iff. simpl. tauto.
  - unfold has_key. cbn -[String.concat existsb].
    destruct (oc_redirect_url cfg); destruct scopes; reflexivity.
Qed.

(** * Further properties of the client code *)

Example uint_to_string_samples :
  uint_to_string 0 = "0" /\ uint_to_string 10 = "10" /\ uint_to_string 100 = "100" /\
  uint_to_string U32_MAX = "4294967295".
Proof. vm_compute. repeat split. Qed.

(** ** The refresh channel stays open *)

Lemma watched_refresh_receivers (te : string -> result TokenResponse RequestTokenError)
    (refresh : Z -> M WatchedClient (result unit string)) (now : Z)
    (s s' : WatchedClient) (l : list Event) (r : result unit string) :
  refresh = Github.refresh_credentials te \/ refresh = Hubspot.refresh_credentials te ->
  refresh now s = Some (s', l, r) -> w_receivers (wc_channel s') = w_receivers (wc_channel s).
Proof.
  intros Hr H. destruct Hr as [-> | ->];
    cbv [Github.refresh_credentials Hubspot.refresh_credentials mbind modify wc_publish gets
         mret emit watch_send wc_set_http wc_set_credentials wc_set_channel] in H;
    destruct (refresh_token (wc_credentials s)) as [rt|];
    try (injection H as <- _ _; reflexivity);
    destruct (te rt) as [tok|e]; simpl in H;
    try (injection H as <- _ _; reflexivity);
    destruct (auth_http_client (tr_access_token tok)) as [h|m]; simpl in H;
    try (injection H as <- _ _; reflexivity);
    destruct (w_receivers (wc_channel s)) eqn:E; simpl in H;
    injection H as <- _ _; simpl; auto.
Qed.

Lemma set_credentials_receivers (c : Credentials) (s s' : WatchedClient) (l : list Event)
    (r : result unit string) :
  set_credentials c s = Some (s', l, r) -> w_receivers (wc_channel s') = w_receivers (wc_channel s).
Proof.
  cbv [set_credentials mbind modify mret wc_set_http wc_set_credentials].
  destruct (auth_http_client (access_token c)); intros H; injection H as <- _ _; reflexivity.
Qed.

Lemma get_check_client_unfold_watched (refresh : Z -> M WatchedClient (result unit string))
    (now : Z) (s : WatchedClient) :
  get_check_client (api := watched_api refresh) now s =
  match is_expired (wc_credentials s) now with
  | None => None
  | Some false => Some (s, [], Ok (wc_http s))
  | Some true =>
      match refresh now s with
      | None => None
      | Some (s', l, Err err) =>
          Some (s', (l ++ [])%list, Err (AuthError ("Unable to refresh credentials: " ++ err)))
      | Some (s', l, Ok _) => Some (s', (l ++ [])%list, Ok (wc_http s'))
      end
  end.
Proof. exact (get_check_client_unfold (watched_api refresh) now s). Qed.

(** A GitHub or HubSpot client built by its constructor and then driven by
    [refresh_credentials], [set_credentials] and [get_check_client] keeps
    exactly one receiver on its refresh channel (its own [on_refresh_rx]), so
    the [send] of a refresh never fails: whenever the token endpoint grants
    the refresh and the new access token makes a valid header, the refresh
    succeeds and publishes the new credentials exactly once. *)
Theorem X_reachable_refresh_publishes (url_parses : string -> bool)
    (te : string -> result TokenResponse RequestTokenError)
    (refresh : Z -> M WatchedClient (result unit string)) (s : WatchedClient) :
  refresh = Github.refresh_credentials te \/ refresh = Hubspot.refresh_credentials te ->
  reachable url_parses refresh s ->
  w_receivers (wc_channel s) = 1%nat /\
  (forall now rt tok h,
     refresh_token (wc_credentials s) = Some rt -> te rt = Ok tok ->
     auth_http_client (tr_access_token tok) = Ok h ->
     exists s', refresh now s =
       Some (s', [EvRefreshExchange rt; EvPublish (credentials_refresh_token (wc_credentials s) now tok)],
             Ok tt)).
Proof.
  intros Hr Hreach.
  assert (Hn : w_receivers (wc_channel s) = 1%nat).
  { induction Hreach as [au tu cid sec red creds s Hnew | now s s' l r _ IH Hs
                        | c s s' l r _ IH Hs | now s s' l r _ IH Hs].
    - unfold watched_new in Hnew.
      destruct (auth_http_client (access_token creds)); [|discriminate].
      destruct (oauth_client url_parses _); [|discriminate].
      injection Hnew as <-. reflexivity.
    - rewrite (watched_refresh_receivers te refresh now s s' l r Hr Hs). exact IH.
    - rewrite (set_credentials_receivers c s s' l r Hs). exact IH.
    - rewrite get_check_client_unfold_watched in Hs.
      destruct (is_expired (wc_credentials s) now) as [[|]|]; [|injection Hs as <- _ _; exact IH
                                                             | discriminate].
      destruct (refresh now s) as [[[s1 l1] r1]|] eqn:E; [|discriminate].
      pose proof (watched_refresh_receivers te refresh now s s1 l1 r1 Hr E) as Hs1.
      destruct r1; injection Hs as <- _ _; rewrite Hs1; exact IH. }
  split; [exact Hn|].
  intros now rt tok h Hs He Hh.
  destruct Hr as [-> | ->]; unfold_watched_refresh; simpl; rewrite Hs, He, Hh; simpl;
    rewrite Hn; eexists; reflexivity.
Qed.

Lemma X_reachable_refresh_publishes_witness :
  w_receivers (wc_channel (demo_client (demo_creds (Some "r1")))) = 1%nat /\
  exists s', Github.refresh_credentials (demo_token_endpoint "tok2") 5
               (demo_client (demo_creds (Some "r1"))) =
    Some (s', [EvRefreshExchange "r1";
               EvPublish (credentials_refresh_token (demo_creds (Some "r1")) 5
                            (mkTokenResponse "tok2" None (Some 3600)))], Ok tt).
Proof.
  destruct (X_reachable_refresh_publishes (fun _ => true) (demo_token_endpoint "tok2")
              (Github.refresh_credentials (demo_token_endpoint "tok2"))
              (demo_client (demo_creds (Some "r1"))) (or_introl eq_refl)) as [H1 H2].
  - apply (reach_new _ _ GITHUB_AUTH_URL GITHUB_TOKEN_URL "cid" "secret" "http://127.0.0.1:8080"
             (demo_creds (Some "r1"))).
    reflexivity.
  - split; [exact H1|].
    apply (H2 5 "r1" (mkTokenResponse "tok2" None (Some 3600)) (mkHttpClient "tok2"));
      reflexivity.
Defined.

(** ** Credentials after a refresh *)

Lemma refreshed_is_expired (c : Credentials) (now : Z) (tok : TokenResponse) (t : Z) :
  (tr_expires_in_secs tok = None ->
     is_expired (credentials_refresh_token c now tok) t = Some false) /\
  (forall e, tr_expires_in_secs tok = Some e -> 0 <= e <= I64_MAX / 1000 ->
     is_expired (credentials_refresh_token c now tok) t = Some (t - now >? e * NANOS_PER_SEC)) /\
  (forall e, tr_expires_in_secs tok = Some e -> I64_MAX / 1000 < e <= U64_MAX ->
     is_expired (credentials_refresh_token c now tok) t = None).
Proof.
  unfold is_expired, credentials_refresh_token, tr_expires_in; simpl.
  split; [intros -> ; reflexivity|]. split.
  - intros e -> He. simpl.
    change (I64_MAX / 1000) with 9223372036854775 in He.
    assert (Hwf : std_duration_wf (std_from_secs e)).
    { unfold std_duration_wf, std_from_secs, U64_MAX, I64_MAX, NANOS_PER_SEC in *; simpl in *; lia. }
    destruct (chrono_from_std_spec _ Hwf) as [Hok _].
    rewrite Hok by (unfold std_total_nanos, std_from_secs, I64_MAX, NANOS_PER_SEC in *; simpl in *; lia).
    simpl. rewrite chrono_gtb_datetime_sub by (unfold NANOS_PER_SEC; lia).
    rewrite Z.add_0_r. reflexivity.
  - intros e -> He. simpl.
    change (I64_MAX / 1000) with 9223372036854775 in He.
    assert (Hwf : std_duration_wf (std_from_secs e)).
    { unfold std_duration_wf, std_from_secs, U64_MAX, I64_MAX, NANOS_PER_SEC in *; simpl in *; lia. }
    destruct (chrono_from_std_spec _ Hwf) as [_ Hbad].
    rewrite Hbad by (unfold std_total_nanos, std_from_secs, I64_MAX, NANOS_PER_SEC in *; simpl in *; lia).
    reflexivity.
Qed.

(** The credential that a refresh stores ([Credentials::refresh_token] of the
    token response, requested at [now]) never expires when the response has
    no lifetime; with a lifetime of [e] seconds up to [i64::MAX / 1000] it is
    expired at [t] exactly when more than [e] seconds have passed since [now]
    (so it is fresh at [now] itself); with a lifetime beyond that (up to
    [u64::MAX]) checking it panics at any instant. *)
Theorem X_refreshed_credentials_expiry (c : Credentials) (now : Z) (tok : TokenResponse) (t : Z) :
  (tr_expires_in_secs tok = None ->
     is_expired (credentials_refresh_token c now tok) t = Some false) /\
  (forall e, tr_expires_in_secs tok = Some e -> 0 <= e <= I64_MAX / 1000 ->
     is_expired (credentials_refresh_token c now tok) t = Some (t - now >? e * NANOS_PER_SEC)) /\
  (forall e, tr_expires_in_secs tok = Some e -> I64_MAX / 1000 < e <= U64_MAX ->
     is_expired (credentials_refresh_token c now tok) t = None).
Proof. exact (refreshed_is_expired c now tok t). Qed.

Lemma X_refreshed_credentials_expiry_witness :
  is_expired (credentials_refresh_token (demo_creds None) 0
                (mkTokenResponse "a" None (Some 60))) (61 * NANOS_PER_SEC)
    = Some (61 * NANOS_PER_SEC - 0 >? 60 * NANOS_PER_SEC) /\
  is_expired (credentials_refresh_token (demo_creds None) 0
                (mkTokenResponse "a" None (Some U64_MAX))) 0 = None.
Proof.
  destruct (X_refreshed_credentials_expiry (demo_creds None) 0
              (mkTokenResponse "a" None (Some 60)) (61 * NANOS_PER_SEC)) as [_ [H1 _]].
  destruct (X_refreshed_credentials_expiry (demo_creds None) 0
              (mkTokenResponse "a" None (Some U64_MAX)) 0) as [_ [_ H2]].
  split.
  - apply (H1 60); [reflexivity | change (I64_MAX / 1000) with 9223372036854775; lia].
  - apply (H2 U64_MAX); [reflexivity | change (I64_MAX / 1000) with 9223372036854775; unfold U64_MAX; lia].
Defined.

(** ** [get_check_client] on an expired GitHub or HubSpot credential *)

Lemma fresh_after_refresh (c : Credentials) (now : Z) (tok : TokenResponse) :
  (forall e, tr_expires_in_secs tok = Some e -> 0 <= e <= I64_MAX / 1000) ->
  is_expired (credentials_refresh_token c now tok) now = Some false.
Proof.
  intros Hb. destruct (refreshed_is_expired c now tok now) as [Hn [Hs _]].
  destruct (tr_expires_in_secs tok) as [e|] eqn:E; [|exact (Hn eq_refl)].
  rewrite (Hs e eq_refl (Hb e eq_refl)). f_equal.
  specialize (Hb e eq_refl). change (I64_MAX / 1000) with 9223372036854775 in Hb. rewrite Z.gtb_ltb. apply Z.ltb_ge. unfold NANOS_PER_SEC; lia.
Qed.

(** On an expired GitHub or HubSpot credential whose refresh the token
    endpoint grants (with a valid header token and a lifetime within
    [chrono]'s range), [get_check_client] sends one refresh grant, stores the
    new credential and HTTP client, publishes the credential, and returns the
    new HTTP client; a second [get_check_client] at the same instant then
    finds the credential fresh and returns the same client with no event. *)
Theorem X_get_check_client_refresh_then_fresh
    (te : string -> result TokenResponse RequestTokenError)
    (refresh : Z -> M WatchedClient (result unit string)) (now : Z) (s : WatchedClient)
    (rt : string) (tok : TokenResponse) (h : HttpClient) :
  refresh = Github.refresh_credentials te \/ refresh = Hubspot.refresh_credentials te ->
  (0 < w_receivers (wc_channel s))%nat ->
  is_expired (wc_credentials s) now = Some true ->
  refresh_token (wc_credentials s) = Some rt -> te rt = Ok tok ->
  auth_http_client (tr_access_token tok) = Ok h ->
  (forall e, tr_expires_in_secs tok = Some e -> 0 <= e <= I64_MAX / 1000) ->
  let c' := credentials_refresh_token (wc_credentials s) now tok in
  let s' := mkWatchedClient c' h (wc_oauth s)
              (mkWatchChannel c' (S (w_version (wc_channel s))) (w_receivers (wc_channel s))) in
  get_check_client (api := watched_api refresh) now s =
    Some (s', [EvRefreshExchange rt; EvPublish c'], Ok h) /\
  get_check_client (api := watched_api refresh) now s' = Some (s', [], Ok h).
Proof.
  intros Hr Hn Hexp Hs He Hh Hb c' s'.
  rewrite !get_check_client_unfold_watched. simpl wc_credentials. simpl wc_http.
  rewrite Hexp. subst c'. rewrite (fresh_after_refresh _ now tok Hb).
  split; [|reflexivity].
  assert (Hrun : refresh now s = Some (s', [EvRefreshExchange rt; EvPublish
                   (credentials_refresh_token (wc_credentials s) now tok)], Ok tt)).
  { destruct (w_receivers (wc_channel s)) as [|k] eqn:Ek; [lia|].
    subst s'. destruct Hr as [-> | ->]; unfold_watched_refresh; simpl; rewrite Hs, He, Hh;
      simpl; rewrite Ek; reflexivity. }
  rewrite Hrun. reflexivity.
Qed.

Lemma X_get_check_client_refresh_then_fresh_witness :
  let c' := credentials_refresh_token (demo_creds (Some "r1")) (61 * NANOS_PER_SEC)
              (mkTokenResponse "tok2" None (Some 3600)) in
  let s' := mkWatchedClient c' (mkHttpClient "tok2") demo_oauth (mkWatchChannel c' 1 1) in
  get_check_client (api := Github.api (demo_token_endpoint "tok2")) (61 * NANOS_PER_SEC)
    (demo_client (demo_creds (Some "r1"))) =
    Some (s', [EvRefreshExchange "r1"; EvPublish c'], Ok (mkHttpClient "tok2")) /\
  get_check_client (api := Github.api (demo_token_endpoint "tok2")) (61 * NANOS_PER_SEC) s' =
    Some (s', [], Ok (mkHttpClient "tok2")).
Proof.
  exact (X_get_check_client_refresh_then_fresh (demo_token_endpoint "tok2")
           (Github.refresh_credentials (demo_token_endpoint "tok2")) (61 * NANOS_PER_SEC)
           (demo_client (demo_creds (Some "r1"))) "r1" (mkTokenResponse "tok2" None (Some 3600))
           (mkHttpClient "tok2") (or_introl eq_refl) ltac:(simpl; lia) eq_refl eq_refl eq_refl
           eq_refl ltac:(intros e He; injection He as <-; change (I64_MAX / 1000) with 9223372036854775; lia)).
Defined.

(** ** GitHub endpoints *)

Lemma prefix_app_iff (p s : string) : String.prefix p s = true <-> exists b, s = (p ++ b)%string.
Proof.
  revert s; induction p as [|a p IH]; intros s.
  - assert (H : String.prefix "" s = true) by (destruct s; reflexivity).
    rewrite H. split; [intros _; exists s; reflexivity | reflexivity].
  - destruct s as [|c s]; simpl.
    + split; [discriminate | intros [b Hb]; discriminate].
    + destruct (ascii_dec a c) as [<-|Hne].
      * rewrite IH. split; intros [b Hb]; exists b; [subst; reflexivity | injection Hb; auto].
      * split; [discriminate | intros [b Hb]; injection Hb; intros; congruence].
Qed.

Lemma prefix_app (p b : string) : String.prefix p (p ++ b) = true.
Proof. apply prefix_app_iff. exists b. reflexivity. Qed.

(** The endpoint of [get_issue] and [get_repo] always starts with
    ["https://api.github.com/repos"]: an argument that already does is used
    as it is (even ["https://api.github.com/reposX"], the check stops before
    the slash), any other is appended to ["https://api.github.com/repos/"];
    so building the endpoint twice gives the same endpoint. *)
Theorem X_github_repos_endpoint (x : string) :
  String.prefix "https://api.github.com/repos" (github_repos_endpoint x) = true /\
  github_repos_endpoint (github_repos_endpoint x) = github_repos_endpoint x /\
  (String.prefix "https://api.github.com/repos" x = true -> github_repos_endpoint x = x) /\
  (String.prefix "https://api.github.com/repos" x = false ->
     github_repos_endpoint x = ("https://api.github.com/repos/" ++ x)%string).
Proof.
  assert (Hpre : String.prefix "https://api.github.com/repos" (github_repos_endpoint x) = true).
  { unfold github_repos_endpoint. destruct (String.prefix _ x) eqn:E; [exact E|].
    exact (prefix_app "https://api.github.com/repos" ("/" ++ x)). }
  split; [exact Hpre|]. split.
  - unfold github_repos_endpoint at 1. rewrite Hpre. reflexivity.
  - unfold github_repos_endpoint. split; intros E; rewrite E; reflexivity.
Qed.

Lemma X_github_repos_endpoint_witness :
  github_repos_endpoint "spyglass-search/spyglass"
    = "https://api.github.com/repos/spyglass-search/spyglass" /\
  github_repos_endpoint "https://api.github.com/reposX" = "https://api.github.com/reposX".
Proof.
  destruct (X_github_repos_endpoint "spyglass-search/spyglass") as [_ [_ [_ H1]]].
  destruct (X_github_repos_endpoint "https://api.github.com/reposX") as [_ [_ [H2 _]]].
  split; [apply H1 | apply H2]; reflexivity.
Defined.

(** ** GitHub pagination *)

Lemma string_contains_spec (s p : string) :
  string_contains s p = true <-> exists a b, s = (a ++ p ++ b)%string.
Proof.
  induction s as [|c s IH].
  - change (string_contains "" p) with (String.prefix p "" || false).
    rewrite orb_false_r, prefix_app_iff. split.
    + intros [b Hb]. exists EmptyString, b. exact Hb.
    + intros [a [b H]]. destruct a as [|c' a]; [exists b; exact H | discriminate].
  - change (string_contains (String c s) p) with (String.prefix p (String c s) || string_contains s p).
    rewrite orb_true_iff, prefix_app_iff, IH. split.
    + intros [[b Hb] | [a [b Hab]]].
      * exists EmptyString, b. exact Hb.
      * exists (String c a), b. simpl. rewrite Hab. reflexivity.
    + intros [a [b H]]. destruct a as [|c' a].
      * left. exists b. exact H.
      * right. simpl in H. injection H as -> Ha. exists a, b. exact Ha.
Qed.

(** [has_next] holds exactly when the first [link] header is made of
    visible ASCII and contains [rel="next"]: a [link] header with another
    byte (say UTF-8 text) reads as the empty string, so as the last page. *)
Theorem X_has_next_spec (headers : HeaderMap) :
  has_next headers = true <->
  exists link, header_get "link" headers = Some link /\
               string_forallb visible_ascii link = true /\
               exists a b, link = (a ++ REL_NEXT ++ b)%string.
Proof.
  unfold has_next. destruct (header_get "link" headers) as [link|].
  - unfold header_to_str. destruct (string_forallb visible_ascii link) eqn:E; simpl.
    + rewrite string_contains_spec. split.
      * intros H. exists link. auto.
      * intros [l [Hl [_ H]]]. injection Hl as <-. exact H.
    + split; [discriminate|]. intros [l [Hl [H _]]]. injection Hl as <-. congruence.
  - split; [discriminate | intros [l [Hl _]]; discriminate].
Qed.

(** ** HubSpot queries *)

Lemma query_count_app (k : string) (a b : list (string * string)) :
  query_count k (a ++ b) = (query_count k a + query_count k b)%nat.
Proof. unfold query_count. rewrite filter_app, length_app. reflexivity. Qed.

Lemma query_lookup_app (k : string) (a b : list (string * string)) :
  query_lookup k (a ++ b) =
  match query_lookup k a with Some v => Some v | None => query_lookup k b end.
Proof.
  unfold query_lookup. induction a as [|[k' v'] a IH]; simpl; [reflexivity|].
  destruct (String.eqb k' k); [reflexivity | exact IH].
Qed.

Lemma properties_query_other (object : CrmObject) (properties : list string) (k : string) :
  k <> "properties" ->
  query_count k (properties_query object properties) = 0%nat /\
  query_lookup k (properties_query object properties) = None.
Proof.
  intros Hk. assert (E : String.eqb "properties" k = false)
    by (apply String.eqb_neq; intros H; apply Hk; symmetry; exact H).
  unfold properties_query.
  destruct (default_prop_as_string object); [|destruct properties];
    unfold query_count, query_lookup; cbn [filter find List.length option_map fst snd];
    try rewrite E; auto.
Qed.

Lemma associations_query_other (associations : list string) (k : string) :
  k <> "associations" ->
  query_count k (associations_query associations) = 0%nat /\
  query_lookup k (associations_query associations) = None.
Proof.
  intros Hk. assert (E : String.eqb "associations" k = false)
    by (apply String.eqb_neq; intros H; apply Hk; symmetry; exact H).
  unfold associations_query. destruct associations;
    unfold query_count, query_lookup; cbn [filter find List.length option_map fst snd];
    try rewrite E; auto.
Qed.

Lemma associations_query_spec (associations : list string) :
  (query_count "associations" (associations_query associations) = 0%nat <-> associations = []) /\
  (associations <> [] ->
     query_lookup "associations" (associations_query associations)
       = Some (String.concat "," associations)).
Proof.
  destruct associations as [|a l]; simpl.
  - split; [tauto | intros H; contradiction].
  - split; [split; discriminate | reflexivity].
Qed.

Lemma default_prop_as_string_none (object : CrmObject) :
  default_prop_as_string object = None <-> object = Contacts \/ object = Meetings.
Proof.
  destruct object; vm_compute; split; intros H;
    try (destruct H as [H|H]); try discriminate; auto.
Qed.

(** The query of [get_object]: for the objects with default properties
    (every object but contacts and meetings) the [properties] value is the
    defaults, a comma, then the requested properties, so it ends in a comma
    when none are requested; for contacts and meetings there is a
    [properties] pair only when properties are requested; there is an
    [associations] pair, with the comma-joined names, only when associations
    are requested; neither key occurs twice. *)
Theorem X_hubspot_get_object_query (object : CrmObject) (id : string)
    (properties associations : list string) :
  let q := snd (get_object_request object id properties associations) in
  (default_prop_as_string object = None <-> object = Contacts \/ object = Meetings) /\
  (forall d, default_prop_as_string object = Some d ->
     query_lookup "properties" q = Some (d ++ "," ++ String.concat "," properties)%string) /\
  (default_prop_as_string object = None ->
     (query_count "properties" q = 0%nat <-> properties = [])) /\
  (query_count "associations" q = 0%nat <-> associations = []) /\
  (associations <> [] -> query_lookup "associations" q = Some (String.concat "," associations)) /\
  (query_count "properties" q <= 1)%nat /\ (query_count "associations" q <= 1)%nat.
Proof.
  intros q. subst q. unfold get_object_request, snd.
  rewrite !query_count_app, !query_lookup_app.
  destruct (properties_query_other object properties "associations") as [Pc Pl]; [discriminate|].
  destruct (associations_query_other associations "properties") as [Ac Al]; [discriminate|].
  destruct (associations_query_spec associations) as [As1 As2].
  rewrite Pc, Pl, Ac. simpl.
  split; [apply default_prop_as_string_none|].
  split.
  - intros d Hd. unfold properties_query. rewrite Hd. reflexivity.
  - unfold properties_query.
    split; [|split; [exact As1 | split; [exact As2|]]].
    + intros Hn. rewrite Hn. unfold query_count. destruct properties; simpl;
        split; (reflexivity || discriminate).
    + unfold query_count, associations_query.
      split; [|destruct associations; simpl; lia].
      destruct (default_prop_as_string object); [|destruct properties]; simpl; lia.
Qed.

Lemma X_hubspot_get_object_query_witness :
  query_lookup "properties" (snd (get_object_request Notes "42" [] ["contacts"])) =
    Some ("hs_attachment_ids,hs_note_body,hs_timestamp,hubspot_owner_id" ++ "," ++ "")%string /\
  query_count "properties" (snd (get_object_request Contacts "42" [] [])) = 0%nat.
Proof.
  destruct (X_hubspot_get_object_query Notes "42" [] ["contacts"]) as [_ [H1 _]].
  destruct (X_hubspot_get_object_query Contacts "42" [] []) as [_ [_ [H2 _]]].
  split.
  - apply H1. reflexivity.
  - apply H2; reflexivity.
Defined.

(** The query of [list_objects] has exactly one [limit] pair, with the
    requested limit or [10] (not clamped), an [after] pair exactly when a
    cursor is given, holding it, and at most one [properties] and one
    [associations] pair. *)
Theorem X_hubspot_list_objects_query (object : CrmObject) (properties associations : list string)
    (after : option string) (limit : option Z) :
  let q := snd (list_objects_request object properties associations after limit) in
  query_count "limit" q = 1%nat /\
  query_lookup "limit" q = Some (uint_to_string (unwrap_or limit 10)) /\
  query_count "after" q = (if after then 1 else 0)%nat /\
  query_lookup "after" q = after /\
  (query_count "properties" q <= 1)%nat /\ (query_count "associations" q <= 1)%nat.
Proof.
  intros q. subst q. unfold list_objects_request, snd.
  rewrite !query_count_app, !query_lookup_app.
  destruct (properties_query_other object properties "limit") as [P1 P2]; [discriminate|].
  destruct (properties_query_other object properties "after") as [P3 P4]; [discriminate|].
  destruct (properties_query_other object properties "associations") as [P5 _]; [discriminate|].
  destruct (associations_query_other associations "limit") as [A1 A2]; [discriminate|].
  destruct (associations_query_other associations "after") as [A3 A4]; [discriminate|].
  destruct (associations_query_other associations "properties") as [A5 _]; [discriminate|].
  rewrite P1, P2, P3, P4, P5, A1, A2, A3, A4, A5.
  destruct after as [a|]; simpl; rewrite ?Nat.add_0_r; (split; [reflexivity|]);
    (split; [reflexivity|]); (split; [reflexivity|]); (split; [reflexivity|]);
    (unfold query_count, properties_query, associations_query;
     split; [destruct (default_prop_as_string object); [|destruct properties]; simpl; lia
            | destruct associations; simpl; lia]).
Qed.

Lemma X_hubspot_list_objects_query_witness :
  query_lookup "limit" (snd (list_objects_request Contacts [] [] (Some "abc") None)) = Some "10" /\
  query_lookup "after" (snd (list_objects_request Contacts [] [] (Some "abc") None)) = Some "abc".
Proof.
  destruct (X_hubspot_list_objects_query Contacts [] [] (Some "abc") None) as [_ [H1 [_ [H2 _]]]].
  split; [rewrite H1 | exact H2]. reflexivity.
Defined.

(** ** Reddit listings and account id *)

(** The query of [list_saved] and [list_upvoted] asks for all time and for a
    limit clamped to [1..100] (the requested one when it is in range), then
    the cursor when one is given; the endpoint names the account. *)
Theorem X_reddit_listing_query (kind username : string) (after : option string) (limit : Z) :
  fst (reddit_listing_request kind username after limit)
    = (REDDIT_API_ENDPOINT ++ "/user/" ++ username ++ "/" ++ kind)%string /\
  query_lookup "t" (snd (reddit_listing_request kind username after limit)) = Some "all" /\
  query_lookup "after" (snd (reddit_listing_request kind username after limit)) = after /\
  exists m, query_lookup "limit" (snd (reddit_listing_request kind username after limit))
              = Some (uint_to_string m) /\ 1 <= m <= 100 /\
            (1 <= limit <= 100 -> m = limit) /\ (limit < 1 -> m = 1) /\ (100 < limit -> m = 100).
Proof.
  unfold reddit_listing_request, fst, snd.
  split; [reflexivity|]. split; [reflexivity|].
  split; [destruct after; reflexivity|].
  exists (Z.min (Z.max limit 1) 100). split; [reflexivity|]. lia.
Qed.

Lemma X_reddit_listing_query_witness :
  query_lookup "limit" (snd (reddit_listing_request "saved" "alice" None 0)) = Some "1" /\
  query_lookup "limit" (snd (reddit_listing_request "saved" "alice" None 500)) = Some "100".
Proof.
  destruct (X_reddit_listing_query "saved" "alice" None 0)
    as [_ [_ [_ [m1 [E1 [_ [_ [L1 _]]]]]]]].
  destruct (X_reddit_listing_query "saved" "alice" None 500)
    as [_ [_ [_ [m2 [E2 [_ [_ [_ L2]]]]]]]].
  split.
  - rewrite E1, (L1 ltac:(lia)). reflexivity.
  - rewrite E2, (L2 ltac:(lia)). reflexivity.
Defined.

(** [account_id] asks the API for the user at most once: with a cached name
    it answers it with no event and no change; otherwise it runs [get_user]
    and on success caches the name, so that the next call answers it
    without running [get_user]; on failure nothing is cached. *)
Theorem X_reddit_account_id_cached (get_user get_user' : M Reddit.Client (result string ApiError))
    (s : Reddit.Client) :
  (forall n, Reddit.username s = Some n -> reddit_account_id get_user s = Some (s, [], Ok n)) /\
  (Reddit.username s = None -> forall s1 l n, get_user s = Some (s1, l, Ok n) ->
     reddit_account_id get_user s = Some (reddit_set_username (Some n) s1, l, Ok n) /\
     reddit_account_id get_user' (reddit_set_username (Some n) s1)
       = Some (reddit_set_username (Some n) s1, [], Ok n)) /\
  (Reddit.username s = None -> forall s1 l e, get_user s = Some (s1, l, Err e) ->
     reddit_account_id get_user s = Some (s1, l, Err e)).
Proof.
  unfold reddit_account_id, mbind, gets, mret, modify. split; [|split].
  - intros n Hn. rewrite Hn. reflexivity.
  - intros Hn s1 l n Hg. rewrite Hn, Hg. simpl. rewrite !app_nil_r. split; reflexivity.
  - intros Hn s1 l e Hg. rewrite Hn, Hg. simpl. rewrite app_nil_r. reflexivity.
Qed.

Definition demo_get_user (name : string) : M Reddit.Client (result string ApiError) :=
  fun s => Some (s, [EvRequest (REDDIT_API_ENDPOINT ++ "/api/v1/me")], Ok name).

Lemma X_reddit_account_id_cached_witness :
  reddit_account_id (demo_get_user "alice") (demo_reddit (demo_creds None)) =
    Some (reddit_set_username (Some "alice") (demo_reddit (demo_creds None)),
          [EvRequest (REDDIT_API_ENDPOINT ++ "/api/v1/me")], Ok "alice") /\
  reddit_account_id (demo_get_user "bob")
    (reddit_set_username (Some "alice") (demo_reddit (demo_creds None)))
    = Some (reddit_set_username (Some "alice") (demo_reddit (demo_creds None)), [], Ok "alice").
Proof.
  destruct (X_reddit_account_id_cached (demo_get_user "alice") (demo_get_user "bob")
              (demo_reddit (demo_creds None))) as [_ [H _]].
  exact (H eq_refl (demo_reddit (demo_creds None)) _ "alice" eq_refl).
Defined.

(** Reddit's [set_credentials] stores the credential first, so a token that
    makes no valid header leaves the new credential beside the old HTTP
    client; in both cases it keeps the cached account name, so a following
    [account_id] answers the name cached for the previous credential without
    asking the API. *)
Theorem X_reddit_set_credentials_keeps_username
    (get_user : M Reddit.Client (result string ApiError)) (c : Credentials)
    (s : Reddit.Client) (n : string) :
  Reddit.username s = Some n ->
  exists s' r,
    reddit_set_credentials c s = Some (s', [], r) /\
    Reddit.credentials_ s' = c /\
    (forall h, auth_http_client (access_token c) = Ok h -> r = Ok tt /\ Reddit.http s' = h) /\
    (forall e, auth_http_client (access_token c) = Err e -> r = Err e /\ Reddit.http s' = Reddit.http s) /\
    reddit_account_id get_user s' = Some (s', [], Ok n).
Proof.
  intros Hn. unfold reddit_set_credentials, mbind, modify, mret.
  destruct (auth_http_client (access_token c)) as [h|e] eqn:E; simpl.
  - eexists _, _. split; [reflexivity|]. simpl. split; [reflexivity|].
    split; [intros h' Hh; injection Hh as <-; auto|].
    split; [intros e' He; discriminate|].
    unfold reddit_account_id, mbind, gets, mret; simpl. rewrite Hn. reflexivity.
  - eexists _, _. split; [reflexivity|]. simpl. split; [reflexivity|].
    split; [intros h' Hh; discriminate|].
    split; [intros e' He; injection He as <-; auto|].
    unfold reddit_account_id, mbind, gets, mret; simpl. rewrite Hn. reflexivity.
Qed.

Lemma X_reddit_set_credentials_keeps_username_witness :
  exists s' r,
    reddit_set_credentials (mkCredentials 0 "other-account" None None)
      (reddit_set_username (Some "alice") (demo_reddit (demo_creds None))) = Some (s', [], r) /\
    Reddit.credentials_ s' = mkCredentials 0 "other-account" None None /\
    (forall h, auth_http_client "other-account" = Ok h -> r = Ok tt /\ Reddit.http s' = h) /\
    (forall e, auth_http_client "other-account" = Err e ->
       r = Err e /\ Reddit.http s' = mkHttpClient "tok") /\
    reddit_account_id (demo_get_user "bob") s' = Some (s', [], Ok "alice").
Proof.
  exact (X_reddit_set_credentials_keeps_username (demo_get_user "bob")
           (mkCredentials 0 "other-account" None None)
           (reddit_set_username (Some "alice") (demo_reddit (demo_creds None))) "alice" eq_refl).
Defined.
